(** * Crazyflie position controller ([cf_pc_control.py])

    A shallow embedding of the [ControllerThread] class and of the
    waypoint follower [coordinates], together with the properties of the
    control law, of the arming state machine, of the position sanity
    check and of the waypoint gate.

    Numbers.  The program computes with numpy [float64] values.  There
    are two embeddings.  The first idealises them as real numbers:
    rounding, infinities and NaN are outside it, and division is the
    total division of [R] ([x / 0 = 0]); no statement over it depends on
    the value of a quotient whose divisor is zero.  It carries the
    formulas of the control law and the arming state machine.  The
    second, the module [IEEE], keeps NaN, the infinities and the
    exceptions of the interpreter, and leaves the arithmetic abstract;
    it carries what depends on a comparison, on [np.clip], on [int] or
    on a missing configuration key: the output limits, the bound of the
    height integral, the position sanity check, the waypoint gate and
    what an iteration sends.

    Effects.  Every method of [ControllerThread] becomes a function on
    the record of its attributes.  Calls to
    [cf.commander.send_setpoint] are recorded, oldest first, in the
    field [sent].  The clock and the contents of [config.json] are inputs
    of the functions that read them.  Logging, the CSV flight log and
    sleeping are not modelled. *)

From Stdlib Require Import Reals Lra Lia List ZArith Bool Ascii String.
Import ListNotations.
Open Scope R_scope.

(** ** Numeric helpers (numpy and the Python built-ins) *)

Definition Rltb (a b : R) : bool := if Rlt_dec a b then true else false.
Definition Rgtb (a b : R) : bool := if Rgt_dec a b then true else false.

(** [np.clip(a, a_min, a_max)] is [minimum(maximum(a, a_min), a_max)]. *)
Definition clip (a a_min a_max : R) : R := Rmin (Rmax a a_min) a_max.

(** [np.radians] and [np.degrees]. *)
Definition radians (d : R) : R := d * (PI / 180).
Definition degrees (r : R) : R := r * (180 / PI).

(** [int(x)] on a float: truncation towards zero. *)
Definition py_int (x : R) : Z :=
  if Rle_dec 0 x then Int_part x else (- Int_part (- x))%Z.

(** Arrays of shape (3,), (4,) and (3,3); the field index is the array
    index. *)
Record vec3 := V3 { v0 : R; v1 : R; v2 : R }.
Record vec4 := V4 { w0 : R; w1 : R; w2 : R; w3 : R }.
Record mat3 := M3 { row0 : vec3; row1 : vec3; row2 : vec3 }.

Definition vsub (a b : vec3) : vec3 :=
  V3 (v0 a - v0 b) (v1 a - v1 b) (v2 a - v2 b).

Definition vdot (a b : vec3) : R := v0 a * v0 b + v1 a * v1 b + v2 a * v2 b.

(** [np.dot(M, v)] for a 3x3 matrix and a vector. *)
Definition mat_vec (M : mat3) (v : vec3) : vec3 :=
  V3 (vdot (row0 M) v) (vdot (row1 M) v) (vdot (row2 M) v).

(** [np.linalg.norm([ex, ey, ez])]. *)
Definition norm3 (ex ey ez : R) : R := sqrt (ex * ex + ey * ey + ez * ez).

Definition eye3 : mat3 := M3 (V3 1 0 0) (V3 0 1 0) (V3 0 0 1).

(** ** The [transformations] module

    [cf_pc_control.py] imports two functions of the third-party module
    [transformations]; the controller is parametric in them.
    [quaternion_matrix] stands for [trans.quaternion_matrix(q)[:3, :3]]. *)

Class Transformations := {
  euler_from_quaternion : vec4 -> R * R * R;
  quaternion_matrix : vec4 -> mat3
}.

(** ** Configuration ([config.json]) *)

Record ThrustGains := mkThrustGains {
  th_kP : R; th_kD : R; th_kI : R; th_C : R
}.

Record Gains := mkGains { g_kP : R; g_kD : R; g_kI : R }.

Record Coordinates := mkCoordinates {
  co_x : list R; co_y : list R; co_z : list R; co_yaw : list R;
  co_relative : bool
}.

Record Config := mkConfig {
  cfg_thrust : ThrustGains;
  cfg_m : R;
  cfg_g : R;
  cfg_pitchroll : Gains;
  cfg_yaw : Gains;
  cfg_coordinates : Coordinates;
  cfg_waypoint_margin : R
}.

(** ** Class constants of [ControllerThread] *)

Definition thrust_step : R := 5e3.
Definition thrust_initial : R := 0.
Definition thrust_limit : R * R := (0, 0.8 * 2 ^ 16 - 1).
Definition roll_limit : R * R := (-30.0, 30.0).
Definition pitch_limit : R * R := (-30.0, 30.0).
Definition yaw_limit : R * R := (-200.0, 200.0).
Definition cumerr_limit : R * R := (-200, 200).

(** ** The controller object *)

(** Arguments of one call of [send_setpoint]. *)
Record Setpoint := mkSetpoint {
  sp_roll : R; sp_pitch : R; sp_yawrate : R; sp_thrust : Z
}.

Definition zero_setpoint : Setpoint := mkSetpoint 0.0 0.0 0.0 0.

(** [__init__] and [run] bind [pos_ref_initial] to the very array object
    that [pos_ref] names, so in-place updates of [pos_ref] (the keyboard
    handler) show through [pos_ref_initial] until [pos_ref] is rebound to
    a new object (the waypoint follower). *)
Inductive InitialRef :=
| SameObject
| OtherObject (v : vec3).

Record ControllerThread := mkControllerThread {
  config : Config;
  enabled : bool;
  last_time_print : R;
  pos : vec3;
  vel : vec3;
  attq : vec4;
  yawrate : R;
  cum_height_err : R;
  err_mag : R;
  roll_r : R;
  pitch_r : R;
  thrust_r : R;
  yawrate_r : R;
  rotR : mat3;
  stab_att : vec3;
  pos_ref : vec3;
  yaw_ref : R;
  pos_ref_initial_obj : InitialRef;
  sent : list Setpoint
}.

Definition pos_ref_initial (s : ControllerThread) : vec3 :=
  match pos_ref_initial_obj s with
  | SameObject => pos_ref s
  | OtherObject v => v
  end.

(** Attribute assignment, one function per attribute. *)

Definition set_config (v : Config) (s : ControllerThread) : ControllerThread :=
  mkControllerThread v (enabled s) (last_time_print s) (pos s) (vel s)
    (attq s) (yawrate s) (cum_height_err s) (err_mag s) (roll_r s)
    (pitch_r s) (thrust_r s) (yawrate_r s) (rotR s) (stab_att s) (pos_ref s)
    (yaw_ref s) (pos_ref_initial_obj s) (sent s).

Definition set_enabled (v : bool) (s : ControllerThread) : ControllerThread :=
  mkControllerThread (config s) v (last_time_print s) (pos s) (vel s)
    (attq s) (yawrate s) (cum_height_err s) (err_mag s) (roll_r s)
    (pitch_r s) (thrust_r s) (yawrate_r s) (rotR s) (stab_att s) (pos_ref s)
    (yaw_ref s) (pos_ref_initial_obj s) (sent s).

Definition set_last_time_print (v : R) (s : ControllerThread) : ControllerThread :=
  mkControllerThread (config s) (enabled s) v (pos s) (vel s) (attq s)
    (yawrate s) (cum_height_err s) (err_mag s) (roll_r s) (pitch_r s)
    (thrust_r s) (yawrate_r s) (rotR s) (stab_att s) (pos_ref s) (yaw_ref s)
    (pos_ref_initial_obj s) (sent s).

Definition set_pos (v : vec3) (s : ControllerThread) : ControllerThread :=
  mkControllerThread (config s) (enabled s) (last_time_print s) v (vel s)
    (attq s) (yawrate s) (cum_height_err s) (err_mag s) (roll_r s)
    (pitch_r s) (thrust_r s) (yawrate_r s) (rotR s) (stab_att s) (pos_ref s)
    (yaw_ref s) (pos_ref_initial_obj s) (sent s).

Definition set_vel (v : vec3) (s : ControllerThread) : ControllerThread :=
  mkControllerThread (config s) (enabled s) (last_time_print s) (pos s) v
    (attq s) (yawrate s) (cum_height_err s) (err_mag s) (roll_r s)
    (pitch_r s) (thrust_r s) (yawrate_r s) (rotR s) (stab_att s) (pos_ref s)
    (yaw_ref s) (pos_ref_initial_obj s) (sent s).

Definition set_attq (v : vec4) (s : ControllerThread) : ControllerThread :=
  mkControllerThread (config s) (enabled s) (last_time_print s) (pos s)
    (vel s) v (yawrate s) (cum_height_err s) (err_mag s) (roll_r s)
    (pitch_r s) (thrust_r s) (yawrate_r s) (rotR s) (stab_att s) (pos_ref s)
    (yaw_ref s) (pos_ref_initial_obj s) (sent s).

Definition set_yawrate (v : R) (s : ControllerThread) : ControllerThread :=
  mkControllerThread (config s) (enabled s) (last_time_print s) (pos s)
    (vel s) (attq s) v (cum_height_err s) (err_mag s) (roll_r s) (pitch_r s)
    (thrust_r s) (yawrate_r s) (rotR s) (stab_att s) (pos_ref s) (yaw_ref s)
    (pos_ref_initial_obj s) (sent s).

Definition set_cum_height_err (v : R) (s : ControllerThread) : ControllerThread :=
  mkControllerThread (config s) (enabled s) (last_time_print s) (pos s)
    (vel s) (attq s) (yawrate s) v (err_mag s) (roll_r s) (pitch_r s)
    (thrust_r s) (yawrate_r s) (rotR s) (stab_att s) (pos_ref s) (yaw_ref s)
    (pos_ref_initial_obj s) (sent s).

Definition set_err_mag (v : R) (s : ControllerThread) : ControllerThread :=
  mkControllerThread (config s) (enabled s) (last_time_print s) (pos s)
    (vel s) (attq s) (yawrate s) (cum_height_err s) v (roll_r s) (pitch_r s)
    (thrust_r s) (yawrate_r s) (rotR s) (stab_att s) (pos_ref s) (yaw_ref s)
    (pos_ref_initial_obj s) (sent s).

Definition set_roll_r (v : R) (s : ControllerThread) : ControllerThread :=
  mkControllerThread (config s) (enabled s) (last_time_print s) (pos s)
    (vel s) (attq s) (yawrate s) (cum_height_err s) (err_mag s) v
    (pitch_r s) (thrust_r s) (yawrate_r s) (rotR s) (stab_att s) (pos_ref s)
    (yaw_ref s) (pos_ref_initial_obj s) (sent s).

Definition set_pitch_r (v : R) (s : ControllerThread) : ControllerThread :=
  mkControllerThread (config s) (enabled s) (last_time_print s) (pos s)
    (vel s) (attq s) (yawrate s) (cum_height_err s) (err_mag s) (roll_r s) v
    (thrust_r s) (yawrate_r s) (rotR s) (stab_att s) (pos_ref s) (yaw_ref s)
    (pos_ref_initial_obj s) (sent s).

Definition set_thrust_r (v : R) (s : ControllerThread) : ControllerThread :=
  mkControllerThread (config s) (enabled s) (last_time_print s) (pos s)
    (vel s) (attq s) (yawrate s) (cum_height_err s) (err_mag s) (roll_r s)
    (pitch_r s) v (yawrate_r s) (rotR s) (stab_att s) (pos_ref s)
    (yaw_ref s) (pos_ref_initial_obj s) (sent s).

Definition set_yawrate_r (v : R) (s : ControllerThread) : ControllerThread :=
  mkControllerThread (config s) (enabled s) (last_time_print s) (pos s)
    (vel s) (attq s) (yawrate s) (cum_height_err s) (err_mag s) (roll_r s)
    (pitch_r s) (thrust_r s) v (rotR s) (stab_att s) (pos_ref s) (yaw_ref s)
    (pos_ref_initial_obj s) (sent s).

Definition set_rotR (v : mat3) (s : ControllerThread) : ControllerThread :=
  mkControllerThread (config s) (enabled s) (last_time_print s) (pos s)
    (vel s) (attq s) (yawrate s) (cum_height_err s) (err_mag s) (roll_r s)
    (pitch_r s) (thrust_r s) (yawrate_r s) v (stab_att s) (pos_ref s)
    (yaw_ref s) (pos_ref_initial_obj s) (sent s).

Definition set_stab_att (v : vec3) (s : ControllerThread) : ControllerThread :=
  mkControllerThread (config s) (enabled s) (last_time_print s) (pos s)
    (vel s) (attq s) (yawrate s) (cum_height_err s) (err_mag s) (roll_r s)
    (pitch_r s) (thrust_r s) (yawrate_r s) (rotR s) v (pos_ref s)
    (yaw_ref s) (pos_ref_initial_obj s) (sent s).

Definition set_pos_ref (v : vec3) (s : ControllerThread) : ControllerThread :=
  mkControllerThread (config s) (enabled s) (last_time_print s) (pos s)
    (vel s) (attq s) (yawrate s) (cum_height_err s) (err_mag s) (roll_r s)
    (pitch_r s) (thrust_r s) (yawrate_r s) (rotR s) (stab_att s) v
    (yaw_ref s) (pos_ref_initial_obj s) (sent s).

Definition set_yaw_ref (v : R) (s : ControllerThread) : ControllerThread :=
  mkControllerThread (config s) (enabled s) (last_time_print s) (pos s)
    (vel s) (attq s) (yawrate s) (cum_height_err s) (err_mag s) (roll_r s)
    (pitch_r s) (thrust_r s) (yawrate_r s) (rotR s) (stab_att s) (pos_ref s)
    v (pos_ref_initial_obj s) (sent s).

Definition set_pos_ref_initial_obj (v : InitialRef) (s : ControllerThread) : ControllerThread :=
  mkControllerThread (config s) (enabled s) (last_time_print s) (pos s)
    (vel s) (attq s) (yawrate s) (cum_height_err s) (err_mag s) (roll_r s)
    (pitch_r s) (thrust_r s) (yawrate_r s) (rotR s) (stab_att s) (pos_ref s)
    (yaw_ref s) v (sent s).

Definition set_sent (v : list Setpoint) (s : ControllerThread) : ControllerThread :=
  mkControllerThread (config s) (enabled s) (last_time_print s) (pos s)
    (vel s) (attq s) (yawrate s) (cum_height_err s) (err_mag s) (roll_r s)
    (pitch_r s) (thrust_r s) (yawrate_r s) (rotR s) (stab_att s) (pos_ref s)
    (yaw_ref s) (pos_ref_initial_obj s) v.

(** ** Outcomes of methods that can raise *)

Inductive Exception :=
| RuntimeError (msg : string) (p : vec3)
| IndexError.

Inductive Outcome :=
| Returned
| Raised (e : Exception).

(** What one control tick reads from outside the object: the two readings
    of [time.time()] made by [print_at_period], and the parsed contents
    of [config.json] at that moment. *)
Record World := mkWorld {
  time_check : R;
  time_stamp : R;
  config_json : Config
}.

(** 2x2 matrix times vector, [np.matmul(A, np.array([x, y]))] with
    [A = [[a, b], [c, d]]]. *)
Definition matmul2 (a b c d x y : R) : R * R := (a * x + b * y, c * x + d * y).

Section Controller.

Context {T : Transformations}.

(** [self.cf.commander.send_setpoint]. *)
Definition send_setpoint (sp : Setpoint) (s : ControllerThread)
  : ControllerThread :=
  set_sent (sent s ++ [sp]) s.

Definition read_config (file : Config) (s : ControllerThread)
  : ControllerThread :=
  set_config file s.

(** *** Telemetry callbacks *)

Definition _log_data_stab_att (roll pitch yaw : R) (s : ControllerThread)
  : ControllerThread :=
  set_stab_att (V3 roll pitch yaw) s.

Definition _log_data_pos (stateX stateY stateZ : R) (s : ControllerThread)
  : ControllerThread :=
  set_pos (V3 stateX stateY stateZ) s.

Definition _log_data_vel (statePX statePY statePZ gyro_z : R)
  (s : ControllerThread) : ControllerThread :=
  let vel_bf := V3 statePX statePY statePZ in
  let s := set_vel (mat_vec (rotR s) vel_bf) s in
  set_yawrate gyro_z s.

Definition _log_data_att (q0 q1 q2 q3 : R) (s : ControllerThread)
  : ControllerThread :=
  let s := set_attq (V4 q1 q2 q3 q0) s in
  set_rotR (quaternion_matrix (attq s)) s.

(** *** Position sanity check *)

Definition make_position_sanity_check (s : ControllerThread)
  : Outcome * ControllerThread :=
  if Rgtb (Rmax (Rabs (v0 (pos s))) (Rabs (v1 (pos s)))) 20
     || Rltb (v2 (pos s)) 0
     || Rgtb (v2 (pos s)) 5
  then (Raised (RuntimeError "Position estimate out of bounds" (pos s)), s)
  else (Returned, s).

(** *** The control law

    [calc_control_signals] is cut at its two comment lines into the
    control law proper (source lines 275-330), the clipping of the four
    outputs (332-336) and [print_at_period] (338-363). *)

Definition control_law (s : ControllerThread) : ControllerThread :=
  let '(roll, pitch, yaw) := euler_from_quaternion (attq s) in
  (* Compute control errors in position *)
  let e := vsub (pos_ref s) (pos s) in
  let ex := v0 e in
  let ey := v1 e in
  let ez := v2 e in
  let s := set_err_mag (norm3 ex ey ez) s in
  let eyaw := degrees (yaw_ref s) - v2 (stab_att s) in
  (* Thrust - height PD controller *)
  let s :=
    if enabled s then
      let s := set_cum_height_err (cum_height_err s + ez) s in
      set_cum_height_err
        (clip (cum_height_err s) (fst cumerr_limit) (snd cumerr_limit)) s
    else s in
  let kP := th_kP (cfg_thrust (config s)) in
  let kD := th_kD (cfg_thrust (config s)) in
  let kI := th_kI (cfg_thrust (config s)) in
  let C := th_C (cfg_thrust (config s)) in
  let mg := cfg_m (config s) * cfg_g (config s) in
  let s :=
    set_thrust_r
      (4 * C *
       (kP * ez - kD * v2 (vel s) + mg + kI * cum_height_err s) *
       2 ^ 16 /
       (cos (radians (v0 (stab_att s))) *
        cos (radians (v1 (stab_att s))))) s in
  (* Pitch and roll - PD controller *)
  let kP := g_kP (cfg_pitchroll (config s)) in
  let kD := g_kD (cfg_pitchroll (config s)) in
  let kI := g_kI (cfg_pitchroll (config s)) in
  let s := set_pitch_r (20 * (kP * ex - kD * v0 (vel s))) s in
  let s := set_roll_r (-20 * (kP * ey - kD * v1 (vel s))) s in
  let '(pitch', roll') :=
    matmul2 (cos yaw) (- sin yaw) (sin yaw) (cos yaw)
      (pitch_r s) (roll_r s) in
  let s := set_pitch_r pitch' s in
  let s := set_roll_r roll' s in
  (* Yaw - P-controller *)
  let kP := g_kP (cfg_yaw (config s)) in
  let kD := g_kD (cfg_yaw (config s)) in
  let kI := g_kI (cfg_yaw (config s)) in
  set_yawrate_r (- (kP * eyaw - kD * yawrate s)) s.

(** Clip control signals to be within the specified range. *)
Definition clip_control_signals (s : ControllerThread) : ControllerThread :=
  let s := set_roll_r (clip (roll_r s) (fst roll_limit) (snd roll_limit)) s in
  let s :=
    set_pitch_r (clip (pitch_r s) (fst pitch_limit) (snd pitch_limit)) s in
  let s :=
    set_yawrate_r (clip (yawrate_r s) (fst yaw_limit) (snd yaw_limit)) s in
  set_thrust_r (clip (thrust_r s) (fst thrust_limit) (snd thrust_limit)) s.

Definition print_at_period (w : World) (period : R) (s : ControllerThread)
  : ControllerThread :=
  if Rgtb (time_check w - period) (last_time_print s) then
    let s := read_config (config_json w) s in
    set_last_time_print (time_stamp w) s
  else s.

Definition calc_control_signals (w : World) (s : ControllerThread)
  : ControllerThread :=
  let s := control_law s in
  let s := clip_control_signals s in
  print_at_period w 0.5 s.

(** *** Arming and disarming *)

Definition disable (stop : bool) (s : ControllerThread) : ControllerThread :=
  let s := if stop then send_setpoint zero_setpoint s else s in
  let s := set_enabled false s in
  let s := set_roll_r 0.0 s in
  let s := set_pitch_r 0.0 s in
  let s := set_yawrate_r 0.0 s in
  set_thrust_r thrust_initial s.

Definition enable (s : ControllerThread) : ControllerThread :=
  (* Need to send a zero setpoint to unlock the controller. *)
  let s := send_setpoint zero_setpoint s in
  let s := set_cum_height_err 0 s in
  set_enabled true s.

Definition increase_thrust (s : ControllerThread) : ControllerThread :=
  let s := set_thrust_r (thrust_r s + thrust_step) s in
  set_thrust_r (Rmin (thrust_r s) 65535) s.

Definition decrease_thrust (s : ControllerThread) : ControllerThread :=
  let s := set_thrust_r (thrust_r s - thrust_step) s in
  set_thrust_r (Rmax 0 (thrust_r s)) s.

(** *** Construction and the control loop *)

(** [__init__], given the contents of [config.json].  The call
    [self.disable(stop=False)] it makes sends nothing and assigns the
    values the record below starts with. *)
Definition init (file : Config) : ControllerThread :=
  {| config := file;
     enabled := false;
     last_time_print := 0.0;
     pos := V3 0.0 0.0 0.0;
     vel := V3 0.0 0.0 0.0;
     attq := V4 0.0 0.0 0.0 1.0;
     yawrate := 0;
     cum_height_err := 0;
     err_mag := 0;
     roll_r := 0;
     pitch_r := 0;
     thrust_r := 0;
     yawrate_r := 0;
     rotR := eye3;
     stab_att := V3 0.0 0.0 0.0;
     pos_ref := V3 0.0 0.0 1.0;
     yaw_ref := 0.0;
     pos_ref_initial_obj := SameObject;
     sent := [] |}.

(** The part of [run] before the main loop, once the link is up. *)
Definition run_setup (s : ControllerThread) : Outcome * ControllerThread :=
  match make_position_sanity_check s with
  | (Raised e, s) => (Raised e, s)
  | (Returned, s) =>
      let s := set_pos_ref (V3 (v0 (pos s)) (v1 (pos s)) 1.0) s in
      let s := set_yaw_ref 0.0 s in
      let s := set_pos_ref_initial_obj SameObject s in
      (Returned, s)
  end.

(** One iteration of the main loop of [run]. *)
Definition run_iteration (w : World) (s : ControllerThread)
  : ControllerThread :=
  let s := calc_control_signals w s in
  if enabled s then
    let sp :=
      mkSetpoint (roll_r s) (pitch_r s) (yawrate_r s) (py_int (thrust_r s)) in
    send_setpoint sp s
  else s.

End Controller.

(** ** Keyboard handler *)

Definition pos_step : R := 0.1.
Definition yaw_step : R := 5.

(** In-place update of one element of the array [pos_ref]. *)
Definition pos_ref_setitem (i : nat) (f : R -> R) (s : ControllerThread)
  : ControllerThread :=
  let p := pos_ref s in
  match i with
  | 0%nat => set_pos_ref (V3 (f (v0 p)) (v1 p) (v2 p)) s
  | 1%nat => set_pos_ref (V3 (v0 p) (f (v1 p)) (v2 p)) s
  | _ => set_pos_ref (V3 (v0 p) (v1 p) (f (v2 p))) s
  end.

Section Interfaces.

Context {T : Transformations}.

(** The body of the loop of [handle_keyboard_input] for one key; the
    boolean is [false] when the loop is left ([break]). *)
Definition handle_key (ch : ascii) (control : ControllerThread)
  : ControllerThread * bool :=
  if Ascii.eqb ch "h" then (control, true)
  else if Ascii.eqb ch ">" then (increase_thrust control, true)
  else if Ascii.eqb ch "<" then (decrease_thrust control, true)
  else if Ascii.eqb ch "w" then
    (pos_ref_setitem 0 (fun r => r + pos_step) control, true)
  else if Ascii.eqb ch "s" then
    (pos_ref_setitem 0 (fun r => r - pos_step) control, true)
  else if Ascii.eqb ch "a" then
    (pos_ref_setitem 1 (fun r => r + pos_step) control, true)
  else if Ascii.eqb ch "d" then
    (pos_ref_setitem 1 (fun r => r - pos_step) control, true)
  else if Ascii.eqb ch "i" then
    (pos_ref_setitem 2 (fun r => r + pos_step) control, true)
  else if Ascii.eqb ch "k" then
    (pos_ref_setitem 2 (fun r => r - pos_step) control, true)
  else if Ascii.eqb ch "j" then
    (set_yaw_ref (yaw_ref control + radians yaw_step) control, true)
  else if Ascii.eqb ch "l" then
    (set_yaw_ref (yaw_ref control - radians yaw_step) control, true)
  else if Ascii.eqb ch " " then
    (pos_ref_setitem 2 (fun _ => 0.0) control, true)
  else if Ascii.eqb ch "e" then (enable control, true)
  else if Ascii.eqb ch "q" then (disable true control, true)
  else if Ascii.eqb ch "Q" then (disable true control, false)
  else (control, true).

(** ** Waypoint follower ([coordinates])

    The follower runs in a thread of its own, next to the control loop
    that updates [err_mag].  It is modelled as a machine that takes one
    step of [coordinates] at a time; the control loop and the telemetry
    callbacks may run between any two of its steps. *)

Inductive Place :=
| AwaitKey                      (* for ch in read_input() *)
| LoopHead (len n : nat)        (* for n in range(len): next index n *)
| WaitMargin (len n : nat)      (* while err_mag > margin, waypoint n *)
| Settle (len n : nat)          (* time.sleep(.5), waypoint n *)
| Finished                      (* after control.disable() *)
| Aborted.                      (* an exception ended the thread *)

(** [control.pos_ref = [x, y, z]]: the name is rebound to a new object, so
    [pos_ref_initial] keeps the old one. *)
Definition rebind_pos_ref (v : vec3) (control : ControllerThread)
  : ControllerThread :=
  let control :=
    match pos_ref_initial_obj control with
    | SameObject =>
        set_pos_ref_initial_obj (OtherObject (pos_ref control)) control
    | OtherObject _ => control
    end in
  set_pos_ref v control.

(** One step of [coordinates].  [key] is what [read_input] yields when
    the follower is waiting for a key: [Some ch] for a key press, [None]
    when the generator ends. *)
Definition coordinates_step (key : option ascii)
  (control : ControllerThread) (p : Place)
  : Outcome * ControllerThread * Place :=
  match p with
  | AwaitKey =>
      let len := List.length (co_x (cfg_coordinates (config control))) in
      match key with
      | Some ch =>
          if Ascii.eqb ch "e"
          then (Returned, enable control, LoopHead len 0)
          else (Returned, control, AwaitKey)
      | None => (Returned, control, LoopHead len 0)
      end
  | LoopHead len n =>
      if (n <? len)%nat then
        let co := cfg_coordinates (config control) in
        match nth_error (co_x co) n, nth_error (co_y co) n with
        | Some x, Some y =>
            let x :=
              if co_relative co then x + v0 (pos_ref_initial control)
              else x in
            let y :=
              if co_relative co then y + v1 (pos_ref_initial control)
              else y in
            match nth_error (co_z co) n, nth_error (co_yaw co) n with
            | Some z, Some yaw =>
                let control := rebind_pos_ref (V3 x y z) control in
                let control := set_yaw_ref (radians yaw) control in
                (Returned, control, WaitMargin len n)
            | _, _ => (Raised IndexError, control, Aborted)
            end
        | _, _ => (Raised IndexError, control, Aborted)
        end
      else (Returned, disable true control, Finished)
  | WaitMargin len n =>
      if Rgtb (err_mag control) (cfg_waypoint_margin (config control))
      then (Returned, control, WaitMargin len n)
      else (Returned, control, Settle len n)
  | Settle len n => (Returned, control, LoopHead len (S n))
  | Finished => (Returned, control, Finished)
  | Aborted => (Returned, control, Aborted)
  end.

(** ** The running program

    The control loop, the telemetry callbacks, the keyboard handler and
    the waypoint follower all act on the one controller object.  An
    event is one atomic action of one of them. *)

Inductive Event :=
| Tick (w : World)                          (* run: one loop iteration *)
| Setup                                     (* run: before the loop *)
| StabAtt (roll pitch yaw : R)              (* _log_data_stab_att *)
| Position (stateX stateY stateZ : R)       (* _log_data_pos *)
| Velocity (statePX statePY statePZ gyro_z : R)  (* _log_data_vel *)
| Attitude (q0 q1 q2 q3 : R)                (* _log_data_att *)
| Key (ch : ascii)                          (* handle_keyboard_input *)
| Follow (key : option ascii).              (* coordinates *)

Record Program := mkProgram {
  control : ControllerThread;
  place : Place
}.

Definition step (ev : Event) (p : Program) : Program :=
  match ev with
  | Tick w => mkProgram (run_iteration w (control p)) (place p)
  | Setup => mkProgram (snd (run_setup (control p))) (place p)
  | StabAtt r pt y => mkProgram (_log_data_stab_att r pt y (control p)) (place p)
  | Position x y z => mkProgram (_log_data_pos x y z (control p)) (place p)
  | Velocity x y z gz =>
      mkProgram (_log_data_vel x y z gz (control p)) (place p)
  | Attitude q0 q1 q2 q3 =>
      mkProgram (_log_data_att q0 q1 q2 q3 (control p)) (place p)
  | Key ch => mkProgram (fst (handle_key ch (control p))) (place p)
  | Follow key =>
      let '(_, c, pl) := coordinates_step key (control p) (place p) in
      mkProgram c pl
  end.

Fixpoint run_events (evs : list Event) (p : Program) : Program :=
  match evs with
  | [] => p
  | ev :: evs => run_events evs (step ev p)
  end.

Definition start (file : Config) : Program := mkProgram (init file) AwaitKey.

End Interfaces.

(** ** A model of [transformations.py]

    The two functions the controller imports, for the default axis
    sequence ['sxyz'] and with quaternions stored as [(x, y, z, w)], the
    order [_log_data_att] builds.  The properties below hold for every
    instance of [Transformations]; this one serves to state them on
    concrete flights. *)

Module Trans.

(** [_EPS = numpy.finfo(float).eps * 4.0]. *)
Definition _EPS : R := / 2 ^ 52 * 4.0.

(** [math.atan2] on reals. *)
Definition atan2 (y x : R) : R :=
  if Rltb 0 x then atan (y / x)
  else if Rltb x 0 then
    (if Rltb y 0 then atan (y / x) - PI else atan (y / x) + PI)
  else if Rltb 0 y then PI / 2
  else if Rltb y 0 then - (PI / 2)
  else 0.

(** [quaternion_matrix(q)[:3, :3]]. *)
Definition quaternion_matrix (q : vec4) : mat3 :=
  let nq := w0 q * w0 q + w1 q * w1 q + w2 q * w2 q + w3 q * w3 q in
  if Rltb nq _EPS then eye3
  else
    let k := sqrt (2.0 / nq) in
    let q0 := w0 q * k in
    let q1 := w1 q * k in
    let q2 := w2 q * k in
    let q3 := w3 q * k in
    M3 (V3 (1.0 - q1 * q1 - q2 * q2) (q0 * q1 - q2 * q3) (q0 * q2 + q1 * q3))
       (V3 (q0 * q1 + q2 * q3) (1.0 - q0 * q0 - q2 * q2) (q1 * q2 - q0 * q3))
       (V3 (q0 * q2 - q1 * q3) (q1 * q2 + q0 * q3) (1.0 - q0 * q0 - q1 * q1)).

(** [euler_from_matrix(M, 'sxyz')]: [i, j, k = 0, 1, 2], no repetition, no
    parity, static frame. *)
Definition euler_from_matrix (M : mat3) : R * R * R :=
  let cy := sqrt (v0 (row0 M) * v0 (row0 M) + v0 (row1 M) * v0 (row1 M)) in
  if Rgtb cy _EPS then
    (atan2 (v1 (row2 M)) (v2 (row2 M)),
     atan2 (- v0 (row2 M)) cy,
     atan2 (v0 (row1 M)) (v0 (row0 M)))
  else
    (atan2 (- v2 (row1 M)) (v1 (row1 M)),
     atan2 (- v0 (row2 M)) cy,
     0.0).

Definition euler_from_quaternion (q : vec4) : R * R * R :=
  euler_from_matrix (quaternion_matrix q).

End Trans.

#[export] Instance transformations_py : Transformations := {
  euler_from_quaternion := Trans.euler_from_quaternion;
  quaternion_matrix := Trans.quaternion_matrix
}.

(** ** Notions used in the statements *)

(** The yaw angle the control law uses: the third Euler angle of the
    estimated attitude quaternion. *)
Definition estimated_yaw {T : Transformations} (s : ControllerThread) : R :=
  snd (euler_from_quaternion (attq s)).

(** The hover term of the thrust command, [4*C*m*g*2^16]. *)
Definition hover_thrust (c : Config) : R :=
  4 * th_C (cfg_thrust c) * (cfg_m c * cfg_g c) * 2 ^ 16.

(** [a] is within the relative tolerance [tol] of [b]. *)
Definition approx_equal (tol a b : R) : Prop := Rabs (a - b) <= tol * Rabs b.

(** Two controller objects agree on every attribute; the record of the
    setpoints sent so far is not compared. *)
Definition same_attributes (s1 s2 : ControllerThread) : Prop :=
  set_sent [] s1 = set_sent [] s2.

(** The event makes the program call [enable]. *)
Definition calls_enable (ev : Event) (p : Program) : bool :=
  match ev with
  | Key ch => Ascii.eqb ch "e"
  | Follow (Some ch) =>
      match place p with
      | AwaitKey => Ascii.eqb ch "e"
      | _ => false
      end
  | _ => false
  end.

(** No event of the list makes the program, started in [p], call
    [enable]. *)
Fixpoint never_enables {T : Transformations} (evs : list Event) (p : Program)
  : bool :=
  match evs with
  | [] => true
  | ev :: evs => negb (calls_enable ev p) && never_enables evs (step ev p)
  end.

(** ** Example configurations and flights *)

Definition example_config : Config :=
  {| cfg_thrust := mkThrustGains 0.5 0.2 0.01 0.3;
     cfg_m := 0.027;
     cfg_g := 9.81;
     cfg_pitchroll := mkGains 1 0.5 0;
     cfg_yaw := mkGains 1 0 0;
     cfg_coordinates := mkCoordinates [0; 1] [0; 0] [1; 1] [0; 0] true;
     cfg_waypoint_margin := 0.1 |}.

(** The same file with the lateral proportional gain set to zero. *)
Definition no_lateral_gain_config : Config :=
  {| cfg_thrust := cfg_thrust example_config;
     cfg_m := cfg_m example_config;
     cfg_g := cfg_g example_config;
     cfg_pitchroll := mkGains 0 0.5 0;
     cfg_yaw := cfg_yaw example_config;
     cfg_coordinates := cfg_coordinates example_config;
     cfg_waypoint_margin := cfg_waypoint_margin example_config |}.

Definition level : vec4 := V4 0 0 0 1.
Definition quarter_turn : vec4 := V4 0 0 (sqrt 2 / 2) (sqrt 2 / 2).

(** At rest at (0, 0, 1) with attitude [q]; the reference is one metre
    ahead along the world x axis. *)
Definition one_metre_ahead (file : Config) (q : vec4) : ControllerThread :=
  set_attq q (set_pos_ref (V3 1 0 1) (set_pos (V3 0 0 1) (init file))).

(** A clock reading before the first print period has elapsed. *)
Definition early : World := mkWorld 0 0 example_config.

(** The key generator ends without an ['e'], the follower sets the first
    waypoint (0, 0, 1), the estimate comes in at 0.9 m and the control
    loop ticks once: the motors are off and the error is 0.1 m. *)
Definition disarmed_flight : Program :=
  run_events [Follow None; Follow None; Position 0 0 0.9; Tick early]
    (start example_config).

(** Armed, 300 m below the reference, with the integral at its upper
    limit. *)
Definition far_below : ControllerThread :=
  set_cum_height_err 200
    (set_pos_ref (V3 0 0 301) (set_pos (V3 0 0 1) (enable (init example_config)))).

(** ** The rest of the control loop *)

Definition period_in_ms : R := 20.

(** What [loop_sleep] does with the rest of the period: sleep for
    [delta_time] seconds, or warn that the deadline was missed by so many
    seconds. *)
Inductive Rest :=
| Sleeps (delta_time : R)
| DeadlineMissed (seconds : R).

(** [loop_sleep], given the clock at the start of the iteration and the
    clock when it is called. *)
Definition loop_sleep (time_start now : R) : Rest :=
  let delta_time := 1e-3 * period_in_ms - (now - time_start) in
  if Rgtb delta_time 0 then Sleeps delta_time
  else DeadlineMissed (- delta_time).

(** ** Further notions used in the statements *)

(** The four stored outputs. *)
Definition outputs (s : ControllerThread) : R * R * R * R :=
  (roll_r s, pitch_r s, yawrate_r s, thrust_r s).

(** The keys that arm or disarm. *)
Definition arming_key (ch : ascii) : bool :=
  Ascii.eqb ch "e" || Ascii.eqb ch "q" || Ascii.eqb ch "Q".

(** The keys [handle_keyboard_input] acts on. *)
Definition handled_key (ch : ascii) : bool :=
  existsb (Ascii.eqb ch)
    ["h"; ">"; "<"; "w"; "s"; "a"; "d"; "i"; "k"; "j"; "l"; " "; "e"; "q";
     "Q"]%char.

(** A waypoint file whose y list is shorter than its x list. *)
Definition ragged_config : Config :=
  {| cfg_thrust := cfg_thrust example_config;
     cfg_m := cfg_m example_config;
     cfg_g := cfg_g example_config;
     cfg_pitchroll := cfg_pitchroll example_config;
     cfg_yaw := cfg_yaw example_config;
     cfg_coordinates := mkCoordinates [0; 1] [0] [1; 1] [0; 0] true;
     cfg_waypoint_margin := cfg_waypoint_margin example_config |}.

(** A waypoint file without waypoints. *)
Definition empty_config : Config :=
  {| cfg_thrust := cfg_thrust example_config;
     cfg_m := cfg_m example_config;
     cfg_g := cfg_g example_config;
     cfg_pitchroll := cfg_pitchroll example_config;
     cfg_yaw := cfg_yaw example_config;
     cfg_coordinates := mkCoordinates [] [] [] [] true;
     cfg_waypoint_margin := cfg_waypoint_margin example_config |}.

(** The waypoint [n] of a configuration, resolved against the initial
    reference [p0] when the file says the coordinates are relative. *)
Definition waypoint_target (co : Coordinates) (p0 : vec3) (x y z : R) : vec3 :=
  if co_relative co then V3 (x + v0 p0) (y + v1 p0) z else V3 x y z.

(** The controller with the measured roll and pitch set to zero. *)
Definition levelled (s : ControllerThread) : ControllerThread :=
  set_stab_att (V3 0 0 (v2 (stab_att s))) s.

(** The two functions of [Trans] on the quaternion (x, y, z, w), with
    the results as tuples of reals. *)
Definition euler_of_reals (x y z w : R) : R * R * R :=
  Trans.euler_from_quaternion (V4 x y z w).

Definition rotation_of_reals (x y z w : R)
  : (R * R * R) * (R * R * R) * (R * R * R) :=
  let M := Trans.quaternion_matrix (V4 x y z w) in
  ((v0 (row0 M), v1 (row0 M), v2 (row0 M)),
   (v0 (row1 M), v1 (row1 M), v2 (row1 M)),
   (v0 (row2 M), v1 (row2 M), v2 (row2 M))).

(** * The controller over IEEE values

    The model above takes numbers as reals.  That leaves out two things
    the interpreter does: a [float64] can be NaN or an infinity, on which
    every comparison and [np.clip] behave in their own way, and a method
    can raise ([KeyError] on a missing configuration key, [ValueError]
    from [int] of NaN).  The module [IEEE] is a second embedding of the
    same methods that keeps both.

    A value is a finite number, an infinity or NaN; comparisons,
    [np.abs], [np.max], [np.clip] and [int] are defined on these values
    as IEEE 754 and numpy define them.  The arithmetic operations are
    parameters of the model: binary64 arithmetic rounds and overflows,
    and whatever is proved for every arithmetic holds for it too.  The
    instance [exact], arithmetic without rounding, serves to run the
    model on inputs that binary64 computes exactly. *)

Module IEEE.

Inductive float64 :=
| Num (r : R)
| PInf
| NInf
| NaN.

Definition is_nan (x : float64) : bool :=
  match x with NaN => true | _ => false end.

(** [x < y]: false when either is NaN. *)
Definition ltb (x y : float64) : bool :=
  match x, y with
  | Num a, Num b => Rltb a b
  | NInf, Num _ => true
  | NInf, PInf => true
  | Num _, PInf => true
  | _, _ => false
  end.

(** [x > y]. *)
Definition gtb (x y : float64) : bool := ltb y x.

(** [x <= y]: false when either is NaN. *)
Definition leb (x y : float64) : bool :=
  match x, y with
  | NaN, _ => false
  | _, NaN => false
  | _, _ => negb (ltb y x)
  end.

(** [lo <= x <= hi], for real bounds. *)
Definition in_range (lo hi : R) (x : float64) : Prop :=
  leb (Num lo) x = true /\ leb x (Num hi) = true.

(** [np.abs]. *)
Definition np_abs (x : float64) : float64 :=
  match x with
  | Num r => Num (Rabs r)
  | PInf => PInf
  | NInf => PInf
  | NaN => NaN
  end.

(** [np.max] of an array of two elements: NaN as soon as one is NaN. *)
Definition np_max2 (a b : float64) : float64 :=
  if is_nan a then a
  else if is_nan b then b
  else if gtb b a then b else a.

(** [np.clip(a, a_min, a_max)] on a scalar: numpy's [_NPY_CLIP], a
    maximum and a minimum that hand a NaN on. *)
Definition np_clip (a a_min a_max : float64) : float64 :=
  let t := if is_nan a then a else if gtb a a_min then a else a_min in
  if is_nan t then t else if ltb t a_max then t else a_max.

(** Arrays of shape (3,), (4,) and (3,3). *)
Record vec3 := V3 { v0 : float64; v1 : float64; v2 : float64 }.
Record vec4 := V4 { w0 : float64; w1 : float64; w2 : float64; w3 : float64 }.
Record mat3 := M3 { row0 : vec3; row1 : vec3; row2 : vec3 }.

(** Python exceptions the methods can raise. *)
Inductive Exception :=
| KeyError
| IndexError
| ValueError
| OverflowError
| RuntimeError (msg : string) (p : vec3).

Inductive Outcome :=
| Returned
| Raised (e : Exception).

(** [int(x)]: truncation towards zero; raises on NaN and on an
    infinity. *)
Definition py_int (x : float64) : Z + Exception :=
  match x with
  | Num r => inl (if Rle_dec 0 r then Int_part r else (- Int_part (- r))%Z)
  | PInf => inr OverflowError
  | NInf => inr OverflowError
  | NaN => inr ValueError
  end.

Definition eye3 : mat3 :=
  M3 (V3 (Num 1) (Num 0) (Num 0)) (V3 (Num 0) (Num 1) (Num 0))
     (V3 (Num 0) (Num 0) (Num 1)).

(** The arithmetic of [float64] and of the libraries: addition,
    subtraction, multiplication, division, negation, [np.cos], [np.sin],
    the square root, and the two functions of [transformations]. *)
Class Arithmetic := {
  fadd : float64 -> float64 -> float64;
  fsub : float64 -> float64 -> float64;
  fmul : float64 -> float64 -> float64;
  fdiv : float64 -> float64 -> float64;
  fneg : float64 -> float64;
  fcos : float64 -> float64;
  fsin : float64 -> float64;
  fsqrt : float64 -> float64;
  euler_from_quaternion : vec4 -> float64 * float64 * float64;
  quaternion_matrix : vec4 -> mat3
}.

Declare Scope f64_scope.
Delimit Scope f64_scope with f64.
Bind Scope f64_scope with float64.
Notation "x + y" := (fadd x y) : f64_scope.
Notation "x - y" := (fsub x y) : f64_scope.
Notation "x * y" := (fmul x y) : f64_scope.
Notation "x / y" := (fdiv x y) : f64_scope.
Notation "- x" := (fneg x) : f64_scope.

(** ** Configuration: a key of [config.json] may be missing *)

Record Gains := mkGains {
  g_kP : option float64;
  g_kD : option float64;
  g_kI : option float64;
  g_C : option float64
}.

Record Coordinates := mkCoordinates {
  co_x : list float64;
  co_y : list float64;
  co_z : list float64;
  co_yaw : list float64;
  co_relative : bool
}.

Record Config := mkConfig {
  cfg_thrust : option Gains;
  cfg_m : option float64;
  cfg_g : option float64;
  cfg_pitchroll : option Gains;
  cfg_yaw : option Gains;
  cfg_coordinates : option Coordinates;
  cfg_waypoint_margin : option float64
}.

(** [config[section][key]]. *)
Definition getitem2 (section : Config -> option Gains)
  (key : Gains -> option float64) (c : Config) : option float64 :=
  match section c with
  | Some g => key g
  | None => None
  end.

Record World := mkWorld {
  time_check : float64;
  time_stamp : float64;
  config_json : Config
}.

(** ** Class constants *)

Definition thrust_step : float64 := Num 5e3.
Definition thrust_initial : float64 := Num 0.
Definition thrust_limit : float64 * float64 := (Num 0, Num (0.8 * 2 ^ 16 - 1)).
Definition roll_limit : float64 * float64 := (Num (-30.0), Num 30.0).
Definition pitch_limit : float64 * float64 := (Num (-30.0), Num 30.0).
Definition yaw_limit : float64 * float64 := (Num (-200.0), Num 200.0).
Definition cumerr_limit : float64 * float64 := (Num (-200), Num 200).

Record Setpoint := mkSetpoint {
  sp_roll : float64; sp_pitch : float64; sp_yawrate : float64; sp_thrust : Z
}.

Definition zero_setpoint : Setpoint :=
  mkSetpoint (Num 0.0) (Num 0.0) (Num 0.0) 0.

Inductive InitialRef :=
| SameObject
| OtherObject (v : vec3).

Record ControllerThread := mkControllerThread {
  config : Config;
  enabled : bool;
  last_time_print : float64;
  pos : vec3;
  vel : vec3;
  attq : vec4;
  yawrate : float64;
  cum_height_err : float64;
  err_mag : float64;
  roll_r : float64;
  pitch_r : float64;
  thrust_r : float64;
  yawrate_r : float64;
  rotR : mat3;
  stab_att : vec3;
  pos_ref : vec3;
  yaw_ref : float64;
  pos_ref_initial_obj : InitialRef;
  sent : list Setpoint
}.

Definition pos_ref_initial (s : ControllerThread) : vec3 :=
  match pos_ref_initial_obj s with
  | SameObject => pos_ref s
  | OtherObject v => v
  end.

Definition set_config (v : Config) (s : ControllerThread) : ControllerThread :=
  mkControllerThread v (enabled s) (last_time_print s) (pos s) (vel s)
    (attq s) (yawrate s) (cum_height_err s) (err_mag s) (roll_r s)
    (pitch_r s) (thrust_r s) (yawrate_r s) (rotR s) (stab_att s) (pos_ref s)
    (yaw_ref s) (pos_ref_initial_obj s) (sent s).

Definition set_enabled (v : bool) (s : ControllerThread) : ControllerThread :=
  mkControllerThread (config s) v (last_time_print s) (pos s) (vel s)
    (attq s) (yawrate s) (cum_height_err s) (err_mag s) (roll_r s)
    (pitch_r s) (thrust_r s) (yawrate_r s) (rotR s) (stab_att s) (pos_ref s)
    (yaw_ref s) (pos_ref_initial_obj s) (sent s).

Definition set_last_time_print (v : float64) (s : ControllerThread) : ControllerThread :=
  mkControllerThread (config s) (enabled s) v (pos s) (vel s) (attq s)
    (yawrate s) (cum_height_err s) (err_mag s) (roll_r s) (pitch_r s)
    (thrust_r s) (yawrate_r s) (rotR s) (stab_att s) (pos_ref s) (yaw_ref s)
    (pos_ref_initial_obj s) (sent s).

Definition set_pos (v : vec3) (s : ControllerThread) : ControllerThread :=
  mkControllerThread (config s) (enabled s) (last_time_print s) v (vel s)
    (attq s) (yawrate s) (cum_height_err s) (err_mag s) (roll_r s)
    (pitch_r s) (thrust_r s) (yawrate_r s) (rotR s) (stab_att s) (pos_ref s)
    (yaw_ref s) (pos_ref_initial_obj s) (sent s).

Definition set_vel (v : vec3) (s : ControllerThread) : ControllerThread :=
  mkControllerThread (config s) (enabled s) (last_time_print s) (pos s) v
    (attq s) (yawrate s) (cum_height_err s) (err_mag s) (roll_r s)
    (pitch_r s) (thrust_r s) (yawrate_r s) (rotR s) (stab_att s) (pos_ref s)
    (yaw_ref s) (pos_ref_initial_obj s) (sent s).

Definition set_attq (v : vec4) (s : ControllerThread) : ControllerThread :=
  mkControllerThread (config s) (enabled s) (last_time_print s) (pos s)
    (vel s) v (yawrate s) (cum_height_err s) (err_mag s) (roll_r s)
    (pitch_r s) (thrust_r s) (yawrate_r s) (rotR s) (stab_att s) (pos_ref s)
    (yaw_ref s) (pos_ref_initial_obj s) (sent s).

Definition set_yawrate (v : float64) (s : ControllerThread) : ControllerThread :=
  mkControllerThread (config s) (enabled s) (last_time_print s) (pos s)
    (vel s) (attq s) v (cum_height_err s) (err_mag s) (roll_r s) (pitch_r s)
    (thrust_r s) (yawrate_r s) (rotR s) (stab_att s) (pos_ref s) (yaw_ref s)
    (pos_ref_initial_obj s) (sent s).

Definition set_cum_height_err (v : float64) (s : ControllerThread) : ControllerThread :=
  mkControllerThread (config s) (enabled s) (last_time_print s) (pos s)
    (vel s) (attq s) (yawrate s) v (err_mag s) (roll_r s) (pitch_r s)
    (thrust_r s) (yawrate_r s) (rotR s) (stab_att s) (pos_ref s) (yaw_ref s)
    (pos_ref_initial_obj s) (sent s).

Definition set_err_mag (v : float64) (s : ControllerThread) : ControllerThread :=
  mkControllerThread (config s) (enabled s) (last_time_print s) (pos s)
    (vel s) (attq s) (yawrate s) (cum_height_err s) v (roll_r s) (pitch_r s)
    (thrust_r s) (yawrate_r s) (rotR s) (stab_att s) (pos_ref s) (yaw_ref s)
    (pos_ref_initial_obj s) (sent s).

Definition set_roll_r (v : float64) (s : ControllerThread) : ControllerThread :=
  mkControllerThread (config s) (enabled s) (last_time_print s) (pos s)
    (vel s) (attq s) (yawrate s) (cum_height_err s) (err_mag s) v
    (pitch_r s) (thrust_r s) (yawrate_r s) (rotR s) (stab_att s) (pos_ref s)
    (yaw_ref s) (pos_ref_initial_obj s) (sent s).

Definition set_pitch_r (v : float64) (s : ControllerThread) : ControllerThread :=
  mkControllerThread (config s) (enabled s) (last_time_print s) (pos s)
    (vel s) (attq s) (yawrate s) (cum_height_err s) (err_mag s) (roll_r s) v
    (thrust_r s) (yawrate_r s) (rotR s) (stab_att s) (pos_ref s) (yaw_ref s)
    (pos_ref_initial_obj s) (sent s).

Definition set_thrust_r (v : float64) (s : ControllerThread) : ControllerThread :=
  mkControllerThread (config s) (enabled s) (last_time_print s) (pos s)
    (vel s) (attq s) (yawrate s) (cum_height_err s) (err_mag s) (roll_r s)
    (pitch_r s) v (yawrate_r s) (rotR s) (stab_att s) (pos_ref s)
    (yaw_ref s) (pos_ref_initial_obj s) (sent s).

Definition set_yawrate_r (v : float64) (s : ControllerThread) : ControllerThread :=
  mkControllerThread (config s) (enabled s) (last_time_print s) (pos s)
    (vel s) (attq s) (yawrate s) (cum_height_err s) (err_mag s) (roll_r s)
    (pitch_r s) (thrust_r s) v (rotR s) (stab_att s) (pos_ref s) (yaw_ref s)
    (pos_ref_initial_obj s) (sent s).

Definition set_rotR (v : mat3) (s : ControllerThread) : ControllerThread :=
  mkControllerThread (config s) (enabled s) (last_time_print s) (pos s)
    (vel s) (attq s) (yawrate s) (cum_height_err s) (err_mag s) (roll_r s)
    (pitch_r s) (thrust_r s) (yawrate_r s) v (stab_att s) (pos_ref s)
    (yaw_ref s) (pos_ref_initial_obj s) (sent s).

Definition set_stab_att (v : vec3) (s : ControllerThread) : ControllerThread :=
  mkControllerThread (config s) (enabled s) (last_time_print s) (pos s)
    (vel s) (attq s) (yawrate s) (cum_height_err s) (err_mag s) (roll_r s)
    (pitch_r s) (thrust_r s) (yawrate_r s) (rotR s) v (pos_ref s)
    (yaw_ref s) (pos_ref_initial_obj s) (sent s).

Definition set_pos_ref (v : vec3) (s : ControllerThread) : ControllerThread :=
  mkControllerThread (config s) (enabled s) (last_time_print s) (pos s)
    (vel s) (attq s) (yawrate s) (cum_height_err s) (err_mag s) (roll_r s)
    (pitch_r s) (thrust_r s) (yawrate_r s) (rotR s) (stab_att s) v
    (yaw_ref s) (pos_ref_initial_obj s) (sent s).

Definition set_yaw_ref (v : float64) (s : ControllerThread) : ControllerThread :=
  mkControllerThread (config s) (enabled s) (last_time_print s) (pos s)
    (vel s) (attq s) (yawrate s) (cum_height_err s) (err_mag s) (roll_r s)
    (pitch_r s) (thrust_r s) (yawrate_r s) (rotR s) (stab_att s) (pos_ref s)
    v (pos_ref_initial_obj s) (sent s).

Definition set_pos_ref_initial_obj (v : InitialRef) (s : ControllerThread) : ControllerThread :=
  mkControllerThread (config s) (enabled s) (last_time_print s) (pos s)
    (vel s) (attq s) (yawrate s) (cum_height_err s) (err_mag s) (roll_r s)
    (pitch_r s) (thrust_r s) (yawrate_r s) (rotR s) (stab_att s) (pos_ref s)
    (yaw_ref s) v (sent s).

Definition set_sent (v : list Setpoint) (s : ControllerThread) : ControllerThread :=
  mkControllerThread (config s) (enabled s) (last_time_print s) (pos s)
    (vel s) (attq s) (yawrate s) (cum_height_err s) (err_mag s) (roll_r s)
    (pitch_r s) (thrust_r s) (yawrate_r s) (rotR s) (stab_att s) (pos_ref s)
    (yaw_ref s) (pos_ref_initial_obj s) v.

(** ** Methods *)

(** A configuration lookup inside a method: continue with the value, or
    raise [KeyError] and leave the object as it is at that point. *)
Definition lookup (e : option float64) (s : ControllerThread)
  (k : float64 -> Outcome * ControllerThread) : Outcome * ControllerThread :=
  match e with
  | Some x => k x
  | None => (Raised KeyError, s)
  end.

Notation "'let?' x ':=' e 'in_state' s 'in' k" :=
  (lookup e s (fun x => k))
  (at level 10, x name, e at level 99, s at level 0, k at level 200).

Ltac lookups :=
  repeat match goal with
         | |- context [lookup ?e ?s ?k] => destruct e; cbn [lookup]
         end.

Section Methods.

Context {A : Arithmetic}.

Local Open Scope f64_scope.

Definition radians (d : float64) : float64 := d * Num (PI / 180).
Definition degrees (r : float64) : float64 := r * Num (180 / PI).

Definition vsub (a b : vec3) : vec3 :=
  V3 (v0 a - v0 b) (v1 a - v1 b) (v2 a - v2 b).

Definition vdot (a b : vec3) : float64 :=
  v0 a * v0 b + v1 a * v1 b + v2 a * v2 b.

Definition mat_vec (M : mat3) (v : vec3) : vec3 :=
  V3 (vdot (row0 M) v) (vdot (row1 M) v) (vdot (row2 M) v).

Definition norm3 (ex ey ez : float64) : float64 :=
  fsqrt (ex * ex + ey * ey + ez * ez).

Definition matmul2 (a b c d x y : float64) : float64 * float64 :=
  (a * x + b * y, c * x + d * y).

Definition send_setpoint (sp : Setpoint) (s : ControllerThread)
  : ControllerThread :=
  set_sent (sent s ++ [sp]) s.

Definition read_config (file : Config) (s : ControllerThread)
  : ControllerThread :=
  set_config file s.

Definition _log_data_stab_att (roll pitch yaw : float64)
  (s : ControllerThread) : ControllerThread :=
  set_stab_att (V3 roll pitch yaw) s.

Definition _log_data_pos (stateX stateY stateZ : float64)
  (s : ControllerThread) : ControllerThread :=
  set_pos (V3 stateX stateY stateZ) s.

Definition _log_data_vel (statePX statePY statePZ gyro_z : float64)
  (s : ControllerThread) : ControllerThread :=
  let vel_bf := V3 statePX statePY statePZ in
  let s := set_vel (mat_vec (rotR s) vel_bf) s in
  set_yawrate gyro_z s.

Definition _log_data_att (q0 q1 q2 q3 : float64) (s : ControllerThread)
  : ControllerThread :=
  let s := set_attq (V4 q1 q2 q3 q0) s in
  set_rotR (quaternion_matrix (attq s)) s.

Definition make_position_sanity_check (s : ControllerThread)
  : Outcome * ControllerThread :=
  if gtb (np_max2 (np_abs (v0 (pos s))) (np_abs (v1 (pos s)))) (Num 20)
     || ltb (v2 (pos s)) (Num 0)
     || gtb (v2 (pos s)) (Num 5)
  then
    (Raised (RuntimeError "Position estimate out of bounds" (pos s)), s)
  else (Returned, s).

(** Source lines 275-330 of [calc_control_signals]. *)
Definition control_law (s : ControllerThread) : Outcome * ControllerThread :=
  let '(roll, pitch, yaw) := euler_from_quaternion (attq s) in
  let e := vsub (pos_ref s) (pos s) in
  let ex := v0 e in
  let ey := v1 e in
  let ez := v2 e in
  let s := set_err_mag (norm3 ex ey ez) s in
  let eyaw := degrees (yaw_ref s) - v2 (stab_att s) in
  let s :=
    if enabled s then
      let s := set_cum_height_err (cum_height_err s + ez) s in
      set_cum_height_err
        (np_clip (cum_height_err s) (fst cumerr_limit) (snd cumerr_limit)) s
    else s in
  let? kP := getitem2 cfg_thrust g_kP (config s) in_state s in
  let? kD := getitem2 cfg_thrust g_kD (config s) in_state s in
  let? kI := getitem2 cfg_thrust g_kI (config s) in_state s in
  let? C := getitem2 cfg_thrust g_C (config s) in_state s in
  let? m := cfg_m (config s) in_state s in
  let? g := cfg_g (config s) in_state s in
  let mg := m * g in
  let s :=
    set_thrust_r
      (Num 4 * C *
       (kP * ez - kD * v2 (vel s) + mg + kI * cum_height_err s) *
       Num (2 ^ 16) /
       (fcos (radians (v0 (stab_att s))) *
        fcos (radians (v1 (stab_att s))))) s in
  let? kP := getitem2 cfg_pitchroll g_kP (config s) in_state s in
  let? kD := getitem2 cfg_pitchroll g_kD (config s) in_state s in
  let? kI := getitem2 cfg_pitchroll g_kI (config s) in_state s in
  let s := set_pitch_r (Num 20 * (kP * ex - kD * v0 (vel s))) s in
  let s := set_roll_r (Num (-20) * (kP * ey - kD * v1 (vel s))) s in
  let '(pitch', roll') :=
    matmul2 (fcos yaw) (- fsin yaw) (fsin yaw) (fcos yaw)
      (pitch_r s) (roll_r s) in
  let s := set_pitch_r pitch' s in
  let s := set_roll_r roll' s in
  let? kP := getitem2 cfg_yaw g_kP (config s) in_state s in
  let? kD := getitem2 cfg_yaw g_kD (config s) in_state s in
  let? kI := getitem2 cfg_yaw g_kI (config s) in_state s in
  (Returned, set_yawrate_r (- (kP * eyaw - kD * yawrate s)) s).

(** Source lines 332-336. *)
Definition clip_control_signals (s : ControllerThread) : ControllerThread :=
  let s :=
    set_roll_r (np_clip (roll_r s) (fst roll_limit) (snd roll_limit)) s in
  let s :=
    set_pitch_r (np_clip (pitch_r s) (fst pitch_limit) (snd pitch_limit)) s in
  let s :=
    set_yawrate_r (np_clip (yawrate_r s) (fst yaw_limit) (snd yaw_limit)) s in
  set_thrust_r (np_clip (thrust_r s) (fst thrust_limit) (snd thrust_limit)) s.

Definition print_at_period (w : World) (period : float64)
  (s : ControllerThread) : ControllerThread :=
  if gtb (time_check w - period) (last_time_print s) then
    let s := read_config (config_json w) s in
    set_last_time_print (time_stamp w) s
  else s.

Definition calc_control_signals (w : World) (s : ControllerThread)
  : Outcome * ControllerThread :=
  match control_law s with
  | (Raised e, s) => (Raised e, s)
  | (Returned, s) =>
      let s := clip_control_signals s in
      (Returned, print_at_period w (Num 0.5) s)
  end.

Definition disable (stop : bool) (s : ControllerThread) : ControllerThread :=
  let s := if stop then send_setpoint zero_setpoint s else s in
  let s := set_enabled false s in
  let s := set_roll_r (Num 0.0) s in
  let s := set_pitch_r (Num 0.0) s in
  let s := set_yawrate_r (Num 0.0) s in
  set_thrust_r thrust_initial s.

Definition enable (s : ControllerThread) : ControllerThread :=
  let s := send_setpoint zero_setpoint s in
  let s := set_cum_height_err (Num 0) s in
  set_enabled true s.

(** Python's [min(a, b)] and [max(a, b)]: the second argument only when
    it compares strictly below (above) the first. *)
Definition py_min (a b : float64) : float64 := if ltb b a then b else a.
Definition py_max (a b : float64) : float64 := if gtb b a then b else a.

Definition increase_thrust (s : ControllerThread) : ControllerThread :=
  let s := set_thrust_r (thrust_r s + thrust_step) s in
  set_thrust_r (py_min (thrust_r s) (Num 65535)) s.

Definition decrease_thrust (s : ControllerThread) : ControllerThread :=
  let s := set_thrust_r (thrust_r s - thrust_step) s in
  set_thrust_r (py_max (Num 0) (thrust_r s)) s.

Definition init (file : Config) : ControllerThread :=
  {| config := file;
     enabled := false;
     last_time_print := Num 0.0;
     pos := V3 (Num 0.0) (Num 0.0) (Num 0.0);
     vel := V3 (Num 0.0) (Num 0.0) (Num 0.0);
     attq := V4 (Num 0.0) (Num 0.0) (Num 0.0) (Num 1.0);
     yawrate := Num 0;
     cum_height_err := Num 0;
     err_mag := Num 0;
     roll_r := Num 0;
     pitch_r := Num 0;
     thrust_r := Num 0;
     yawrate_r := Num 0;
     rotR := eye3;
     stab_att := V3 (Num 0.0) (Num 0.0) (Num 0.0);
     pos_ref := V3 (Num 0.0) (Num 0.0) (Num 1.0);
     yaw_ref := Num 0.0;
     pos_ref_initial_obj := SameObject;
     sent := [] |}.

Definition run_setup (s : ControllerThread) : Outcome * ControllerThread :=
  match make_position_sanity_check s with
  | (Raised e, s) => (Raised e, s)
  | (Returned, s) =>
      let s := set_pos_ref (V3 (v0 (pos s)) (v1 (pos s)) (Num 1.0)) s in
      let s := set_yaw_ref (Num 0.0) s in
      let s := set_pos_ref_initial_obj SameObject s in
      (Returned, s)
  end.

(** Source lines 246-250, the rest of the loop body: [int(self.thrust_r)]
    is evaluated, and may raise, before anything is sent. *)
Definition send_outputs (s : ControllerThread)
  : Outcome * ControllerThread :=
  if enabled s then
    match py_int (thrust_r s) with
    | inr e => (Raised e, s)
    | inl thrust =>
        let sp := mkSetpoint (roll_r s) (pitch_r s) (yawrate_r s) thrust in
        (Returned, send_setpoint sp s)
    end
  else (Returned, s).

(** One iteration of the main loop of [run], with no other thread
    assigning in between. *)
Definition run_iteration (w : World) (s : ControllerThread)
  : Outcome * ControllerThread :=
  match calc_control_signals w s with
  | (Raised e, s) => (Raised e, s)
  | (Returned, s) => send_outputs s
  end.

(** ** Keyboard handler and waypoint follower *)

Definition pos_step : float64 := Num 0.1.
Definition yaw_step : float64 := Num 5.

Definition pos_ref_setitem (i : nat) (f : float64 -> float64)
  (s : ControllerThread) : ControllerThread :=
  let p := pos_ref s in
  match i with
  | 0%nat => set_pos_ref (V3 (f (v0 p)) (v1 p) (v2 p)) s
  | 1%nat => set_pos_ref (V3 (v0 p) (f (v1 p)) (v2 p)) s
  | _ => set_pos_ref (V3 (v0 p) (v1 p) (f (v2 p))) s
  end.

Definition handle_key (ch : ascii) (control : ControllerThread)
  : ControllerThread * bool :=
  if Ascii.eqb ch "h" then (control, true)
  else if Ascii.eqb ch ">" then (increase_thrust control, true)
  else if Ascii.eqb ch "<" then (decrease_thrust control, true)
  else if Ascii.eqb ch "w" then
    (pos_ref_setitem 0 (fun r => r + pos_step) control, true)
  else if Ascii.eqb ch "s" then
    (pos_ref_setitem 0 (fun r => r - pos_step) control, true)
  else if Ascii.eqb ch "a" then
    (pos_ref_setitem 1 (fun r => r + pos_step) control, true)
  else if Ascii.eqb ch "d" then
    (pos_ref_setitem 1 (fun r => r - pos_step) control, true)
  else if Ascii.eqb ch "i" then
    (pos_ref_setitem 2 (fun r => r + pos_step) control, true)
  else if Ascii.eqb ch "k" then
    (pos_ref_setitem 2 (fun r => r - pos_step) control, true)
  else if Ascii.eqb ch "j" then
    (set_yaw_ref (yaw_ref control + radians yaw_step) control, true)
  else if Ascii.eqb ch "l" then
    (set_yaw_ref (yaw_ref control - radians yaw_step) control, true)
  else if Ascii.eqb ch " " then
    (pos_ref_setitem 2 (fun _ => Num 0.0) control, true)
  else if Ascii.eqb ch "e" then (enable control, true)
  else if Ascii.eqb ch "q" then (disable true control, true)
  else if Ascii.eqb ch "Q" then (disable true control, false)
  else (control, true).

Inductive Place :=
| AwaitKey
| LoopHead (len n : nat)
| WaitMargin (len n : nat)
| Settle (len n : nat)
| Finished
| Aborted.

Definition rebind_pos_ref (v : vec3) (control : ControllerThread)
  : ControllerThread :=
  let control :=
    match pos_ref_initial_obj control with
    | SameObject =>
        set_pos_ref_initial_obj (OtherObject (pos_ref control)) control
    | OtherObject _ => control
    end in
  set_pos_ref v control.

(** The head of the [for] loop: [range(len(config['coordinates']['x']))]
    is evaluated once, when the key loop is left. *)
Definition enter_loop (control : ControllerThread)
  : Outcome * ControllerThread * Place :=
  match cfg_coordinates (config control) with
  | Some co => (Returned, control, LoopHead (List.length (co_x co)) 0)
  | None => (Raised KeyError, control, Aborted)
  end.

Definition coordinates_step (key : option ascii)
  (control : ControllerThread) (p : Place)
  : Outcome * ControllerThread * Place :=
  match p with
  | AwaitKey =>
      match key with
      | Some ch =>
          if Ascii.eqb ch "e" then enter_loop (enable control)
          else (Returned, control, AwaitKey)
      | None => enter_loop control
      end
  | LoopHead len n =>
      if (n <? len)%nat then
        match cfg_coordinates (config control) with
        | None => (Raised KeyError, control, Aborted)
        | Some co =>
            match nth_error (co_x co) n, nth_error (co_y co) n with
            | Some x, Some y =>
                let x :=
                  if co_relative co then x + v0 (pos_ref_initial control)
                  else x in
                let y :=
                  if co_relative co then y + v1 (pos_ref_initial control)
                  else y in
                match nth_error (co_z co) n, nth_error (co_yaw co) n with
                | Some z, Some yaw =>
                    let control := rebind_pos_ref (V3 x y z) control in
                    let control := set_yaw_ref (radians yaw) control in
                    (Returned, control, WaitMargin len n)
                | _, _ => (Raised IndexError, control, Aborted)
                end
            | _, _ => (Raised IndexError, control, Aborted)
            end
        end
      else (Returned, disable true control, Finished)
  | WaitMargin len n =>
      match cfg_waypoint_margin (config control) with
      | None => (Raised KeyError, control, Aborted)
      | Some margin =>
          if gtb (err_mag control) margin
          then (Returned, control, WaitMargin len n)
          else (Returned, control, Settle len n)
      end
  | Settle len n => (Returned, control, LoopHead len (S n))
  | Finished => (Returned, control, Finished)
  | Aborted => (Returned, control, Aborted)
  end.

(** What the threads do, in the order in which it happens.  [Tick] is
    an iteration of the control loop that nothing interrupts; [Calc] and
    [Send] are its two halves, for the runs in which a callback, a key
    or the follower comes in between. *)
Inductive Event :=
| Tick (w : World)
| Calc (w : World)
| Send
| Setup
| StabAtt (roll pitch yaw : float64)
| Position (stateX stateY stateZ : float64)
| Velocity (statePX statePY statePZ gyro_z : float64)
| Attitude (q0 q1 q2 q3 : float64)
| Key (ch : ascii)
| Follow (key : option ascii).

Record Program := mkProgram {
  control : ControllerThread;
  place : Place
}.

(** One event.  When the method raises, the object stays as the method
    left it. *)
Definition step (ev : Event) (p : Program) : Program :=
  match ev with
  | Tick w => mkProgram (snd (run_iteration w (control p))) (place p)
  | Calc w => mkProgram (snd (calc_control_signals w (control p))) (place p)
  | Send => mkProgram (snd (send_outputs (control p))) (place p)
  | Setup => mkProgram (snd (run_setup (control p))) (place p)
  | StabAtt r pt y => mkProgram (_log_data_stab_att r pt y (control p)) (place p)
  | Position x y z => mkProgram (_log_data_pos x y z (control p)) (place p)
  | Velocity x y z gz =>
      mkProgram (_log_data_vel x y z gz (control p)) (place p)
  | Attitude q0 q1 q2 q3 =>
      mkProgram (_log_data_att q0 q1 q2 q3 (control p)) (place p)
  | Key ch => mkProgram (fst (handle_key ch (control p))) (place p)
  | Follow key =>
      let '(_, c, pl) := coordinates_step key (control p) (place p) in
      mkProgram c pl
  end.

Fixpoint run_events (evs : list Event) (p : Program) : Program :=
  match evs with
  | [] => p
  | ev :: evs => run_events evs (step ev p)
  end.

Definition start (file : Config) : Program := mkProgram (init file) AwaitKey.

End Methods.

(** ** Notions used in the statements *)

Definition present (o : option float64) : bool :=
  match o with Some _ => true | None => false end.

(** Every key that [calc_control_signals] reads is in the
    configuration. *)
Definition has_gains (c : Config) : bool :=
  forallb present
    [getitem2 cfg_thrust g_kP c; getitem2 cfg_thrust g_kD c;
     getitem2 cfg_thrust g_kI c; getitem2 cfg_thrust g_C c;
     cfg_m c; cfg_g c;
     getitem2 cfg_pitchroll g_kP c; getitem2 cfg_pitchroll g_kD c;
     getitem2 cfg_pitchroll g_kI c;
     getitem2 cfg_yaw g_kP c; getitem2 cfg_yaw g_kD c;
     getitem2 cfg_yaw g_kI c].

(** The value of a key that is present. *)
Definition value (o : option float64) : float64 :=
  match o with Some x => x | None => NaN end.

(** The integral is a number within its limits. *)
Definition integral_within_limits (s : ControllerThread) : Prop :=
  in_range (-200) 200 (cum_height_err s).

(** The sum an armed tick clips: the integral plus the height error. *)
Definition integral_sum {A : Arithmetic} (s : ControllerThread) : float64 :=
  fadd (cum_height_err s) (fsub (v2 (pos_ref s)) (v2 (pos s))).

(** The events that run the control law. *)
Definition runs_control_law (ev : Event) : Prop :=
  exists w, ev = Tick w \/ ev = Calc w.

(** The test [err_mag > margin] of the follower's wait loop. *)
Definition still_waiting (s : ControllerThread) (margin : float64) : bool :=
  gtb (err_mag s) margin.

(** The test of [make_position_sanity_check]. *)
Definition out_of_bounds (p : vec3) : bool :=
  gtb (np_max2 (np_abs (v0 p)) (np_abs (v1 p))) (Num 20)
  || ltb (v2 p) (Num 0)
  || gtb (v2 p) (Num 5).

(** ** Arithmetic without rounding *)

Definition exact_neg (x : float64) : float64 :=
  match x with
  | Num a => Num (- a)
  | PInf => NInf
  | NInf => PInf
  | NaN => NaN
  end.

Definition exact_add (x y : float64) : float64 :=
  match x, y with
  | NaN, _ => NaN
  | _, NaN => NaN
  | Num a, Num b => Num (a + b)
  | PInf, NInf => NaN
  | NInf, PInf => NaN
  | PInf, _ => PInf
  | _, PInf => PInf
  | NInf, _ => NInf
  | _, NInf => NInf
  end.

Definition exact_sub (x y : float64) : float64 := exact_add x (exact_neg y).

(** An infinity with the sign of [r], NaN for zero. *)
Definition signed_infinity (positive : bool) (r : R) : float64 :=
  if Rltb 0 r then (if positive then PInf else NInf)
  else if Rltb r 0 then (if positive then NInf else PInf)
  else NaN.

Definition exact_mul (x y : float64) : float64 :=
  match x, y with
  | NaN, _ => NaN
  | _, NaN => NaN
  | Num a, Num b => Num (a * b)
  | PInf, Num b => signed_infinity true b
  | NInf, Num b => signed_infinity false b
  | Num a, PInf => signed_infinity true a
  | Num a, NInf => signed_infinity false a
  | PInf, PInf => PInf
  | NInf, NInf => PInf
  | PInf, NInf => NInf
  | NInf, PInf => NInf
  end.

(** Division; a zero divisor counts as positive zero. *)
Definition exact_div (x y : float64) : float64 :=
  match x, y with
  | NaN, _ => NaN
  | _, NaN => NaN
  | Num a, Num b =>
      if Rltb b 0 then Num (a / b)
      else if Rltb 0 b then Num (a / b)
      else signed_infinity true a
  | Num _, PInf => Num 0
  | Num _, NInf => Num 0
  | PInf, Num b => if Rltb b 0 then NInf else PInf
  | NInf, Num b => if Rltb b 0 then PInf else NInf
  | _, _ => NaN
  end.

Definition exact_cos (x : float64) : float64 :=
  match x with Num a => Num (cos a) | _ => NaN end.

Definition exact_sin (x : float64) : float64 :=
  match x with Num a => Num (sin a) | _ => NaN end.

Definition exact_sqrt (x : float64) : float64 :=
  match x with
  | Num a => if Rltb a 0 then NaN else Num (sqrt a)
  | PInf => PInf
  | NInf => NaN
  | NaN => NaN
  end.

Definition exact_euler (q : vec4) : float64 * float64 * float64 :=
  match w0 q, w1 q, w2 q, w3 q with
  | Num x, Num y, Num z, Num w =>
      let '(roll, pitch, yaw) := euler_of_reals x y z w in
      (Num roll, Num pitch, Num yaw)
  | _, _, _, _ => (NaN, NaN, NaN)
  end.

Definition exact_rotation (q : vec4) : mat3 :=
  match w0 q, w1 q, w2 q, w3 q with
  | Num x, Num y, Num z, Num w =>
      let '((a, b, c), (d, e, f), (g, h, i)) := rotation_of_reals x y z w in
      M3 (V3 (Num a) (Num b) (Num c)) (V3 (Num d) (Num e) (Num f))
         (V3 (Num g) (Num h) (Num i))
  | _, _, _, _ =>
      M3 (V3 NaN NaN NaN) (V3 NaN NaN NaN) (V3 NaN NaN NaN)
  end.

#[export] Instance exact : Arithmetic := {
  fadd := exact_add;
  fsub := exact_sub;
  fmul := exact_mul;
  fdiv := exact_div;
  fneg := exact_neg;
  fcos := exact_cos;
  fsin := exact_sin;
  fsqrt := exact_sqrt;
  euler_from_quaternion := exact_euler;
  quaternion_matrix := exact_rotation
}.

(** ** Example flights

    The numbers are chosen so that binary64 computes what is used of
    them without rounding. *)

Definition flight_config : Config :=
  {| cfg_thrust :=
       Some (mkGains (Some (Num 0.5)) (Some (Num 0.25)) (Some (Num 0.125))
               (Some (Num 0.25)));
     cfg_m := Some (Num 0.03125);
     cfg_g := Some (Num 9.75);
     cfg_pitchroll :=
       Some (mkGains (Some (Num 1)) (Some (Num 0.5)) (Some (Num 0)) None);
     cfg_yaw :=
       Some (mkGains (Some (Num 1)) (Some (Num 0)) (Some (Num 0)) None);
     cfg_coordinates :=
       Some (mkCoordinates [Num 0; Num 1] [Num 0; Num 0] [Num 1; Num 1]
               [Num 0; Num 0] true);
     cfg_waypoint_margin := Some (Num 0.5) |}.

(** A clock reading before the first print period has elapsed. *)
Definition early : World := mkWorld (Num 0) (Num 0) flight_config.

(** The position estimate has gone to NaN along x (a diverged
    estimator); the controller is armed. *)
Definition lost_x : ControllerThread :=
  _log_data_pos NaN (Num 0) (Num 1) (enable (init flight_config)).

(** The position estimate has gone to NaN along z; the controller is
    armed. *)
Definition lost_z : ControllerThread :=
  _log_data_pos (Num 0) (Num 0) NaN (enable (init flight_config)).

(** Armed at the origin, one metre below the reference, with the
    integral at its upper limit. *)
Definition saturated : ControllerThread :=
  set_cum_height_err (Num 200) (enable (init flight_config)).


(** The estimate is NaN along x and 25 m along y, at a height of 1 m. *)
Definition lost_x_far_y : ControllerThread :=
  _log_data_pos NaN (Num 25) (Num 1) (init flight_config).

(** The estimate comes in at a height of 0.5 m, [run] sets the reference
    one metre up, the key generator ends without an ['e'], the follower
    sets the first waypoint (0, 0, 1) and the control loop ticks once:
    the motors are off and the error is 0.5 m, which is the margin. *)
Definition disarmed_flight : Program :=
  run_events
    [Position (Num 0) (Num 0) (Num 0.5); Setup; Follow None; Follow None;
     Tick early]
    (start flight_config).

End IEEE.

(** * Properties *)

(** ** Comparisons and clipping *)

Lemma Rltb_lt (a b : R) : a < b -> Rltb a b = true.
Proof. unfold Rltb. destruct (Rlt_dec a b); intros; auto; lra. Qed.

Lemma Rltb_ge (a b : R) : b <= a -> Rltb a b = false.
Proof. unfold Rltb. destruct (Rlt_dec a b); intros; auto; lra. Qed.

Lemma Rgtb_gt (a b : R) : a > b -> Rgtb a b = true.
Proof. unfold Rgtb. destruct (Rgt_dec a b); intros; auto; lra. Qed.

Lemma Rgtb_le (a b : R) : a <= b -> Rgtb a b = false.
Proof. unfold Rgtb. destruct (Rgt_dec a b); intros; auto; lra. Qed.

Lemma Rltb_spec (a b : R) : reflect (a < b) (Rltb a b).
Proof. unfold Rltb. destruct (Rlt_dec a b); constructor; assumption. Qed.

Lemma Rgtb_spec (a b : R) : reflect (a > b) (Rgtb a b).
Proof. unfold Rgtb. destruct (Rgt_dec a b); constructor; assumption. Qed.

Lemma clip_bounds (a a_min a_max : R) :
  a_min <= a_max -> a_min <= clip a a_min a_max <= a_max.
Proof.
  intros Hle. unfold clip. split.
  - apply Rmin_glb; [apply Rmax_r | exact Hle].
  - apply Rmin_r.
Qed.

Lemma clip_inside (a a_min a_max : R) :
  a_min <= a <= a_max -> clip a a_min a_max = a.
Proof.
  intros [Hlo Hhi]. unfold clip.
  rewrite Rmax_left by exact Hlo. apply Rmin_left. exact Hhi.
Qed.

(** ** The model of [transformations.py] on two attitudes *)

Lemma EPS_small : 0 < Trans._EPS < 1 / 2.
Proof.
  unfold Trans._EPS.
  assert (H : 0 < / 2 ^ 52 <= / 2 ^ 4).
  { split.
    - apply Rinv_0_lt_compat. apply pow_lt. lra.
    - apply Rinv_le_contravar; [apply pow_lt; lra|].
      apply Rle_pow; [lra | lia]. }
  replace (/ 2 ^ 4) with (1 / 16) in H by (simpl; field).
  lra.
Qed.

Lemma atan2_pos_x (y x : R) : 0 < x -> Trans.atan2 y x = atan (y / x).
Proof. intros Hx. unfold Trans.atan2. now rewrite Rltb_lt. Qed.

Lemma atan2_pos_y_axis (y : R) : 0 < y -> Trans.atan2 y 0 = PI / 2.
Proof.
  intros Hy. unfold Trans.atan2.
  rewrite (Rltb_ge 0 0) by lra. now rewrite Rltb_lt.
Qed.

(** A unit quaternion that turns about the vertical axis only. *)
Lemma quaternion_matrix_yaw_only (c d : R) :
  c * c + d * d = 1 ->
  Trans.quaternion_matrix (V4 0 0 c d)
  = M3 (V3 (1 - 2 * (c * c)) (- (2 * (c * d))) 0)
       (V3 (2 * (c * d)) (1 - 2 * (c * c)) 0)
       (V3 0 0 1).
Proof.
  intros Hn. unfold Trans.quaternion_matrix. cbn [w0 w1 w2 w3].
  pose proof EPS_small as HE.
  replace (0 * 0 + 0 * 0 + c * c + d * d) with 1 by lra.
  rewrite Rltb_ge by lra.
  replace (2.0 / 1) with 2 by lra.
  assert (Hs : sqrt 2 * sqrt 2 = 2) by (apply sqrt_sqrt; lra).
  set (k := sqrt 2) in *.
  f_equal; f_equal; try (replace 1.0 with 1 by lra);
    try (ring_simplify; replace (k ^ 2) with 2 by (simpl; lra); lra);
    try ring.
Qed.

Lemma euler_yaw_only (c d : R) :
  c * c + d * d = 1 ->
  snd (Trans.euler_from_quaternion (V4 0 0 c d))
  = Trans.atan2 (2 * (c * d)) (1 - 2 * (c * c)).
Proof.
  intros Hn. unfold Trans.euler_from_quaternion.
  rewrite quaternion_matrix_yaw_only by exact Hn.
  unfold Trans.euler_from_matrix. cbn [row0 row1 row2 v0 v1 v2].
  replace ((1 - 2 * (c * c)) * (1 - 2 * (c * c)) + 2 * (c * d) * (2 * (c * d)))
    with 1 by nra.
  rewrite sqrt_1. pose proof EPS_small as HE.
  rewrite Rgtb_gt by lra. reflexivity.
Qed.

(** Level attitude: the yaw estimate is zero. *)
Lemma euler_level_yaw : snd (Trans.euler_from_quaternion (V4 0 0 0 1)) = 0.
Proof.
  rewrite euler_yaw_only by lra.
  rewrite atan2_pos_x by lra.
  replace (2 * (0 * 1) / (1 - 2 * (0 * 0))) with 0 by lra.
  apply atan_0.
Qed.

(** A quarter turn to the left: the yaw estimate is 90 degrees. *)
Lemma euler_quarter_turn_yaw :
  snd (Trans.euler_from_quaternion (V4 0 0 (sqrt 2 / 2) (sqrt 2 / 2)))
  = PI / 2.
Proof.
  assert (Hs : sqrt 2 * sqrt 2 = 2) by (apply sqrt_sqrt; lra).
  rewrite euler_yaw_only by nra.
  replace (2 * (sqrt 2 / 2 * (sqrt 2 / 2))) with 1 by nra.
  replace (1 - 1) with 0 by ring.
  apply atan2_pos_y_axis. lra.
Qed.

(** ** Attributes a method leaves alone *)

Section Frames.

Context {T : Transformations}.

Lemma control_law_cum_height_err (s : ControllerThread) :
  cum_height_err (control_law s)
  = if enabled s
    then clip (cum_height_err s + (v2 (pos_ref s) - v2 (pos s))) (-200) 200
    else cum_height_err s.
Proof.
  unfold control_law.
  destruct (euler_from_quaternion (attq s)) as [[roll pitch] yaw].
  cbn. destruct (enabled s); reflexivity.
Qed.

Lemma control_law_enabled (s : ControllerThread) :
  enabled (control_law s) = enabled s.
Proof.
  unfold control_law.
  destruct (euler_from_quaternion (attq s)) as [[roll pitch] yaw].
  cbn. destruct (enabled s) eqn:He; cbn; exact He.
Qed.

Lemma calc_control_signals_cum_height_err (w : World) (s : ControllerThread) :
  cum_height_err (calc_control_signals w s) = cum_height_err (control_law s).
Proof.
  unfold calc_control_signals, print_at_period, read_config.
  destruct (Rgtb _ _); reflexivity.
Qed.

Lemma calc_control_signals_enabled (w : World) (s : ControllerThread) :
  enabled (calc_control_signals w s) = enabled s.
Proof.
  rewrite <- (control_law_enabled s).
  unfold calc_control_signals, print_at_period, read_config.
  destruct (Rgtb _ _); reflexivity.
Qed.

Lemma run_iteration_cum_height_err (w : World) (s : ControllerThread) :
  cum_height_err (run_iteration w s) = cum_height_err (control_law s).
Proof.
  rewrite <- (calc_control_signals_cum_height_err w).
  unfold run_iteration. destruct (enabled _); reflexivity.
Qed.

Lemma run_iteration_enabled (w : World) (s : ControllerThread) :
  enabled (run_iteration w s) = enabled s.
Proof.
  transitivity (enabled (calc_control_signals w s));
    [|apply calc_control_signals_enabled].
  unfold run_iteration.
  destruct (enabled (calc_control_signals w s)) eqn:He; cbn; exact He.
Qed.

Lemma run_setup_frame (s : ControllerThread) :
  cum_height_err (snd (run_setup s)) = cum_height_err s
  /\ enabled (snd (run_setup s)) = enabled s.
Proof.
  unfold run_setup, make_position_sanity_check.
  destruct (_ || _); split; reflexivity.
Qed.

(** What a key does to the integral and to the armed flag. *)
Lemma handle_key_frame (ch : ascii) (s : ControllerThread) :
  if Ascii.eqb ch "e"
  then fst (handle_key ch s) = enable s
  else cum_height_err (fst (handle_key ch s)) = cum_height_err s
       /\ (enabled s = false -> enabled (fst (handle_key ch s)) = false).
Proof.
  unfold handle_key.
  destruct (Ascii.eqb_spec ch "e") as [->|Hne]; [reflexivity|].
  repeat match goal with
         | |- context [Ascii.eqb ch ?c] => destruct (Ascii.eqb ch c)
         end; cbn; split; auto.
Qed.

(** What one step of the follower does to the integral and to the armed
    flag. *)
Lemma coordinates_step_frame (key : option ascii) (s : ControllerThread)
  (pl : Place) :
  let c := snd (fst (coordinates_step key s pl)) in
  if calls_enable (Follow key) (mkProgram s pl)
  then c = enable s
  else cum_height_err c = cum_height_err s
       /\ (enabled s = false -> enabled c = false).
Proof.
  destruct pl as [|len n|len n|len n| |]; cbn -[Nat.ltb].
  - destruct key as [ch|]; cbn; [|auto].
    destruct (Ascii.eqb ch "e"); cbn; auto.
  - destruct key as [ch|]; cbn -[Nat.ltb];
      (destruct (n <? len)%nat; [|cbn; auto];
       destruct (nth_error (co_x _) n); [|cbn; auto];
       destruct (nth_error (co_y _) n); [|cbn; auto];
       destruct (nth_error (co_z _) n); [|cbn; auto];
       destruct (nth_error (co_yaw _) n); [|cbn; auto];
       unfold rebind_pos_ref; destruct (pos_ref_initial_obj s); cbn; auto).
  - destruct key as [ch|]; cbn; destruct (Rgtb _ _); cbn; auto.
  - destruct key; cbn; auto.
  - destruct key; cbn; auto.
  - destruct key; cbn; auto.
Qed.

(** While the motors are off, an event that does not call [enable]
    changes neither the integral nor the armed flag. *)
Lemma step_disarmed (ev : Event) (p : Program) :
  enabled (control p) = false ->
  calls_enable ev p = false ->
  cum_height_err (control (step ev p)) = cum_height_err (control p)
  /\ enabled (control (step ev p)) = false.
Proof.
  destruct p as [s pl]. intros Hd Hne. cbn [control] in Hd.
  destruct ev; cbn [step control place].
  - rewrite run_iteration_cum_height_err, control_law_cum_height_err,
      run_iteration_enabled, Hd. auto.
  - destruct (run_setup_frame s) as [-> ->]. auto.
  - auto.
  - auto.
  - auto.
  - auto.
  - pose proof (handle_key_frame ch s) as H. cbn in Hne. rewrite Hne in H.
    destruct H as [-> H]. auto.
  - pose proof (coordinates_step_frame key s pl) as H.
    destruct (coordinates_step key s pl) as [[o c] pl'].
    cbn [fst snd control] in *. rewrite Hne in H.
    destruct H as [-> H]. auto.
Qed.

End Frames.

(** ** The control law *)

Section ControlLaw.

Context {T : Transformations}.

Lemma control_law_thrust_r (s : ControllerThread) :
  thrust_r (control_law s)
  = 4 * th_C (cfg_thrust (config s)) *
    (th_kP (cfg_thrust (config s)) * (v2 (pos_ref s) - v2 (pos s))
     - th_kD (cfg_thrust (config s)) * v2 (vel s)
     + cfg_m (config s) * cfg_g (config s)
     + th_kI (cfg_thrust (config s)) * cum_height_err (control_law s))
    * 2 ^ 16
    / (cos (v0 (stab_att s) * (PI / 180)) * cos (v1 (stab_att s) * (PI / 180))).
Proof.
  unfold control_law.
  destruct (euler_from_quaternion (attq s)) as [[roll pitch] yaw].
  cbn -[pow]. destruct (enabled s); reflexivity.
Qed.

Lemma control_law_lateral (s : ControllerThread) :
  let yaw := estimated_yaw s in
  let g := cfg_pitchroll (config s) in
  let pitch :=
    20 * (g_kP g * (v0 (pos_ref s) - v0 (pos s)) - g_kD g * v0 (vel s)) in
  let roll :=
    -20 * (g_kP g * (v1 (pos_ref s) - v1 (pos s)) - g_kD g * v1 (vel s)) in
  pitch_r (control_law s) = cos yaw * pitch + - sin yaw * roll
  /\ roll_r (control_law s) = sin yaw * pitch + cos yaw * roll.
Proof.
  unfold control_law, estimated_yaw.
  destruct (euler_from_quaternion (attq s)) as [[roll pitch] yaw].
  cbn. destruct (enabled s); split; reflexivity.
Qed.

Lemma calc_control_signals_outputs (w : World) (s : ControllerThread) :
  let s0 := control_law s in
  let s' := calc_control_signals w s in
  roll_r s' = clip (roll_r s0) (-30.0) 30.0
  /\ pitch_r s' = clip (pitch_r s0) (-30.0) 30.0
  /\ yawrate_r s' = clip (yawrate_r s0) (-200.0) 200.0
  /\ thrust_r s' = clip (thrust_r s0) 0 (0.8 * 2 ^ 16 - 1).
Proof.
  unfold calc_control_signals. generalize (control_law s). intros s0.
  unfold print_at_period, read_config.
  destruct (Rgtb _ _); cbn -[pow]; repeat split.
Qed.

(** C1.  The thrust command that [calc_control_signals] computes before
    clamping is
    [4*C*(kP*e_z - kD*vel_z + m*g + kI*cum_height_err) * 2^16
     / (cos roll_body * cos pitch_body)],
    with [e_z] the z component of reference minus estimate, [vel_z] the
    estimated vertical velocity, [cum_height_err] the integral state
    after this tick's update and [roll_body], [pitch_body] the measured
    stabilizer roll and pitch converted from degrees to radians.  The
    stored thrust is that value clipped to [thrust_limit]. *)
Theorem thrust_before_clamping (w : World) (s : ControllerThread) :
  let e_z := v2 (pos_ref s) - v2 (pos s) in
  let vel_z := v2 (vel s) in
  let roll_body := v0 (stab_att s) * (PI / 180) in
  let pitch_body := v1 (stab_att s) * (PI / 180) in
  let th := cfg_thrust (config s) in
  let integral := cum_height_err (calc_control_signals w s) in
  let thrust_raw :=
    4 * th_C th *
    (th_kP th * e_z - th_kD th * vel_z + cfg_m (config s) * cfg_g (config s)
     + th_kI th * integral) * 2 ^ 16 / (cos roll_body * cos pitch_body) in
  thrust_r (control_law s) = thrust_raw
  /\ integral = (if enabled s then clip (cum_height_err s + e_z) (-200) 200
                 else cum_height_err s)
  /\ thrust_r (calc_control_signals w s)
     = clip thrust_raw 0 (0.8 * 2 ^ 16 - 1).
Proof.
  intros e_z vel_z roll_body pitch_body th integral thrust_raw.
  assert (Hint : integral = cum_height_err (control_law s))
    by apply calc_control_signals_cum_height_err.
  assert (Hraw : thrust_r (control_law s) = thrust_raw).
  { subst thrust_raw. rewrite Hint. apply control_law_thrust_r. }
  split; [exact Hraw|]. split.
  - rewrite Hint. apply control_law_cum_height_err.
  - rewrite <- Hraw. apply calc_control_signals_outputs.
Qed.

End ControlLaw.



(** ** Lateral commands and the hover scenario *)

Lemma cos_zero_degrees : cos (0 * (PI / 180)) = 1.
Proof. rewrite Rmult_0_l. apply cos_0. Qed.

Lemma clip_positive (a lo hi : R) : 0 < a -> 0 < hi -> 0 < clip a lo hi.
Proof.
  intros Ha Hhi. unfold clip.
  apply Rmin_glb_lt; [|exact Hhi].
  apply Rlt_le_trans with a; [exact Ha | apply Rmax_l].
Qed.

Section Scenarios.

Context {T : Transformations}.

(** C5, amended.  Before clamping, the lateral commands are
    [pitch = 20*(kP*e_x - kD*vel_x)] and [roll = -20*(kP*e_y - kD*vel_y)]
    in the world frame, rotated together by the 2-D rotation matrix of
    the yaw angle extracted from the estimated attitude quaternion; the
    reference yaw plays no part.  With yaw 0, zero velocity, error
    (1, 0, 0) and a positive gain [kP], the pitch command is positive
    and the roll command zero, before and after clamping.  With a yaw
    estimate of 90 degrees a pure world-frame pitch command becomes a
    pure roll command. *)
Theorem lateral_commands (w : World) (s : ControllerThread) (yaw_ref' : R) :
  let yaw := estimated_yaw s in
  let g := cfg_pitchroll (config s) in
  let e_x := v0 (pos_ref s) - v0 (pos s) in
  let e_y := v1 (pos_ref s) - v1 (pos s) in
  let pitch := 20 * (g_kP g * e_x - g_kD g * v0 (vel s)) in
  let roll := -20 * (g_kP g * e_y - g_kD g * v1 (vel s)) in
  let s' := control_law s in
  (pitch_r s' = cos yaw * pitch - sin yaw * roll
   /\ roll_r s' = sin yaw * pitch + cos yaw * roll)
  /\ (pitch_r (control_law (set_yaw_ref yaw_ref' s)) = pitch_r s'
      /\ roll_r (control_law (set_yaw_ref yaw_ref' s)) = roll_r s')
  /\ (yaw = 0 -> vel s = V3 0 0 0 -> vsub (pos_ref s) (pos s) = V3 1 0 0 ->
      0 < g_kP g ->
      (0 < pitch_r s' /\ roll_r s' = 0)
      /\ (0 < pitch_r (calc_control_signals w s)
          /\ roll_r (calc_control_signals w s) = 0))
  /\ (yaw = PI / 2 -> roll = 0 -> pitch_r s' = 0 /\ roll_r s' = pitch).
Proof.
  intros yaw g e_x e_y pitch roll s'.
  destruct (control_law_lateral s) as [Hp Hr].
  fold yaw g e_x e_y pitch roll s' in Hp, Hr.
  split; [split; [rewrite Hp; ring | exact Hr]|].
  split; [|split].
  - destruct (control_law_lateral (set_yaw_ref yaw_ref' s)) as [Hp' Hr'].
    cbn in Hp', Hr'. fold yaw g e_x e_y pitch roll in Hp', Hr'.
    unfold estimated_yaw in Hp', Hr'. cbn in Hp', Hr'.
    fold (estimated_yaw s) in Hp', Hr'. fold yaw in Hp', Hr'.
    rewrite Hp', Hr', Hp, Hr. split; reflexivity.
  - intros Hyaw Hvel He Hk.
    assert (Hpitch : pitch = 20 * g_kP g).
    { unfold pitch, e_x. apply (f_equal v0) in He. cbn in He.
      rewrite He, Hvel. cbn. ring. }
    assert (Hroll : roll = 0).
    { unfold roll, e_y. apply (f_equal v1) in He. cbn in He.
      rewrite He, Hvel. cbn. ring. }
    assert (Hraw : 0 < pitch_r s' /\ roll_r s' = 0).
    { rewrite Hp, Hr, Hyaw, cos_0, sin_0, Hpitch, Hroll. split; lra. }
    split; [exact Hraw|].
    destruct (calc_control_signals_outputs w s) as (Hcr & Hcp & _).
    fold s' in Hcr, Hcp. rewrite Hcr, Hcp. destruct Hraw as [Hpos Hzero].
    split.
    + apply clip_positive; lra.
    + rewrite Hzero. apply clip_inside. lra.
  - intros Hyaw Hroll.
    rewrite Hp, Hr, Hyaw, cos_PI2, sin_PI2, Hroll. split; ring.
Qed.

(** C7, amended.  With the estimate at the origin, zero velocity, zero
    measured tilt, zero integral state and the reference at
    (0, 0, 1, 0 degrees), the height error is one metre and the thrust
    before clamping is [4*C*(kP + m*g + kI*I)*2^16], where [I] is the
    integral after the tick (1 when armed, 0 when not): the hover term
    [4*C*m*g*2^16] plus [4*C*(kP + kI*I)*2^16]. *)
Theorem hover_scenario_thrust (s : ControllerThread) :
  pos s = V3 0 0 0 ->
  vel s = V3 0 0 0 ->
  v0 (stab_att s) = 0 ->
  v1 (stab_att s) = 0 ->
  cum_height_err s = 0 ->
  pos_ref s = V3 0 0 1 ->
  yaw_ref s = 0 ->
  let th := cfg_thrust (config s) in
  let I := if enabled s then 1 else 0 in
  thrust_r (control_law s)
  = 4 * th_C th * (th_kP th + cfg_m (config s) * cfg_g (config s)
                   + th_kI th * I) * 2 ^ 16
  /\ thrust_r (control_law s)
     = hover_thrust (config s) + 4 * th_C th * (th_kP th + th_kI th * I) * 2 ^ 16.
Proof.
  intros Hpos Hvel Hroll Hpitch Hcum Href Hyaw th I.
  assert (HI : cum_height_err (control_law s) = I).
  { rewrite control_law_cum_height_err, Hcum, Href, Hpos. cbn. unfold I.
    destruct (enabled s); [|reflexivity].
    replace (0 + (1 - 0)) with 1 by ring. apply clip_inside. lra. }
  assert (Hraw : thrust_r (control_law s)
                 = 4 * th_C th * (th_kP th + cfg_m (config s) * cfg_g (config s)
                                  + th_kI th * I) * 2 ^ 16).
  { rewrite control_law_thrust_r, HI, Hroll, Hpitch, cos_zero_degrees.
    rewrite Href, Hpos, Hvel. cbn -[pow]. fold th. field. }
  split; [exact Hraw|].
  rewrite Hraw. unfold hover_thrust. fold th. ring.
Qed.

End Scenarios.

(** The C5 scenarios flown with [transformations.py]. *)
Lemma lateral_commands_witness :
  let s := one_metre_ahead example_config level in
  let t := one_metre_ahead example_config quarter_turn in
  (estimated_yaw s = 0 /\ vel s = V3 0 0 0
   /\ vsub (pos_ref s) (pos s) = V3 1 0 0
   /\ 0 < g_kP (cfg_pitchroll (config s)))
  /\ (0 < pitch_r (control_law s) /\ roll_r (control_law s) = 0)
  /\ estimated_yaw t = PI / 2
  /\ pitch_r (control_law t) = 0
  /\ roll_r (control_law t) = 20 * (1 * (1 - 0) - 0.5 * 0.0).
Proof.
  intros s t.
  assert (Hs : estimated_yaw s = 0) by exact euler_level_yaw.
  assert (Hv : vel s = V3 0 0 0) by (cbn; f_equal; lra).
  assert (He : vsub (pos_ref s) (pos s) = V3 1 0 0)
    by (cbn; unfold vsub; cbn; f_equal; lra).
  assert (Hk : 0 < g_kP (cfg_pitchroll (config s))) by (cbn; lra).
  assert (Ht : estimated_yaw t = PI / 2) by exact euler_quarter_turn_yaw.
  assert (Hr : -20 * (g_kP (cfg_pitchroll (config t))
                      * (v1 (pos_ref t) - v1 (pos t))
                      - g_kD (cfg_pitchroll (config t)) * v1 (vel t)) = 0)
    by (cbn; lra).
  split; [repeat split; assumption|].
  split.
  - exact (proj1 (proj1 (proj2 (proj2 (lateral_commands early s 0)))
                    Hs Hv He Hk)).
  - split; [exact Ht|].
    exact (proj2 (proj2 (proj2 (lateral_commands early t 0))) Ht Hr).
Defined.

(** C5 as stated fails: level, at rest, one metre behind the reference
    along x, with the lateral gain [kP] of [config.json] set to zero, the
    pitch command is zero, not positive. *)
Lemma zero_gain_pitch_not_positive :
  let s := one_metre_ahead no_lateral_gain_config level in
  estimated_yaw s = 0
  /\ vel s = V3 0 0 0
  /\ vsub (pos_ref s) (pos s) = V3 1 0 0
  /\ pitch_r (control_law s) = 0
  /\ ~ 0 < pitch_r (control_law s).
Proof.
  intros s.
  assert (Hs : estimated_yaw s = 0) by exact euler_level_yaw.
  assert (Hp : pitch_r (control_law s) = 0).
  { destruct (control_law_lateral s) as [Hp _]. rewrite Hp, Hs, cos_0, sin_0.
    cbn. lra. }
  split; [exact Hs|].
  split; [cbn; f_equal; lra|].
  split; [cbn; unfold vsub; cbn; f_equal; lra|].
  split; [exact Hp|].
  rewrite Hp. lra.
Qed.

(** The C7 scenario on the freshly constructed controller. *)
Lemma hover_scenario_thrust_witness :
  let s := init example_config in
  thrust_r (control_law s)
  = 4 * 0.3 * (0.5 + 0.027 * 9.81 + 0.01 * 0) * 2 ^ 16.
Proof.
  intros s.
  refine (proj1 (hover_scenario_thrust s _ _ _ _ _ _ _));
    cbn; try reflexivity; try lra; f_equal; lra.
Defined.

(** C7 as stated fails: in its scenario the controller is one metre
    below the reference, and with the gains of [example_config] the
    thrust before clamping is more than half as much again as the hover
    term. *)
Lemma origin_thrust_far_from_hover :
  let s := init example_config in
  pos s = V3 0 0 0
  /\ vel s = V3 0 0 0
  /\ v0 (stab_att s) = 0 /\ v1 (stab_att s) = 0
  /\ cum_height_err s = 0
  /\ pos_ref s = V3 0 0 1 /\ yaw_ref s = 0
  /\ ~ approx_equal (1 / 2) (thrust_r (control_law s)) (hover_thrust (config s)).
Proof.
  intros s.
  assert (Hraw : thrust_r (control_law s)
                 = 4 * 0.3 * (0.5 + 0.027 * 9.81) * 2 ^ 16).
  { rewrite control_law_thrust_r. rewrite control_law_cum_height_err.
    cbn -[pow]. replace (0.0 * (PI / 180)) with (0 * (PI / 180)) by lra.
    rewrite cos_zero_degrees. lra. }
  repeat split; try (cbn; lra); try (cbn; f_equal; lra).
  unfold approx_equal. rewrite Hraw. unfold hover_thrust. cbn -[pow Rabs].
  rewrite !Rabs_pos_eq; lra.
Qed.

(** ** Arming and disarming *)

Section Arming.

Context {T : Transformations}.

(** C8.  [enable], from any state, sends the zero setpoint
    (0, 0, 0, 0), then sets [cum_height_err] to zero, then sets the armed
    flag; so after re-arming, whatever happened before, the integral is
    zero. *)
Theorem enable_resets_integral (s : ControllerThread) (stop : bool)
  (evs : list Event) (p : Program) :
  enable s
  = set_enabled true (set_cum_height_err 0 (send_setpoint zero_setpoint s))
  /\ sent (enable s) = sent s ++ [zero_setpoint]
  /\ (sp_roll zero_setpoint = 0 /\ sp_pitch zero_setpoint = 0
      /\ sp_yawrate zero_setpoint = 0 /\ sp_thrust zero_setpoint = 0%Z)
  /\ cum_height_err (enable s) = 0
  /\ enabled (enable s) = true
  /\ cum_height_err (enable (disable stop s)) = 0
  /\ cum_height_err (control (step (Key "e") (run_events evs p))) = 0.
Proof.
  split; [reflexivity|]. split; [reflexivity|].
  split; [cbn; repeat split; lra|].
  split; [reflexivity|]. split; [reflexivity|]. split; reflexivity.
Qed.

(** C9.  [disable()], whatever the outputs were, sends the zero
    setpoint, sets the roll, pitch and yaw-rate outputs to zero and the
    thrust to [thrust_initial = 0], and clears the armed flag; a second
    [disable()] sends the zero setpoint again and leaves every attribute
    as the first one set it. *)
Theorem disable_zeroes_outputs (s : ControllerThread) :
  let s' := disable true s in
  sent s' = sent s ++ [zero_setpoint]
  /\ roll_r s' = 0 /\ pitch_r s' = 0 /\ yawrate_r s' = 0
  /\ thrust_r s' = thrust_initial /\ thrust_initial = 0
  /\ enabled s' = false
  /\ same_attributes (disable true s') s'
  /\ sent (disable true s') = sent s' ++ [zero_setpoint].
Proof.
  intros s'. subst s'. unfold same_attributes, set_sent. cbn.
  split; [reflexivity|].
  split; [lra|]. split; [lra|]. split; [lra|].
  repeat (split; [reflexivity|]). reflexivity.
Qed.

Lemma run_events_disarmed (evs : list Event) (p : Program) :
  enabled (control p) = false ->
  never_enables evs p = true ->
  cum_height_err (control (run_events evs p)) = cum_height_err (control p)
  /\ enabled (control (run_events evs p)) = false.
Proof.
  revert p. induction evs as [|ev evs IH]; intros p Hd Hne.
  - cbn. auto.
  - cbn [never_enables] in Hne. apply andb_prop in Hne as [Hev Hne].
    apply negb_true_iff in Hev.
    destruct (step_disarmed ev p Hd Hev) as [Hc Hd'].
    cbn [run_events]. destruct (IH (step ev p) Hd' Hne) as [Hc' Hd''].
    split; [congruence | exact Hd''].
Qed.

(** C10.  [disable] leaves [pos_ref], [yaw_ref] and [cum_height_err] as
    they are, and while the motors are off no event other than a call of
    [enable] changes [cum_height_err]: the value accumulated in flight
    stays until the next [enable]. *)
Theorem disable_keeps_reference_and_integral (stop : bool)
  (s : ControllerThread) (evs : list Event) (p : Program) :
  (pos_ref (disable stop s) = pos_ref s
   /\ yaw_ref (disable stop s) = yaw_ref s
   /\ cum_height_err (disable stop s) = cum_height_err s)
  /\ (enabled (control p) = false ->
      never_enables evs p = true ->
      cum_height_err (control (run_events evs p)) = cum_height_err (control p)
      /\ enabled (control (run_events evs p)) = false).
Proof.
  split.
  - destruct stop; repeat split.
  - apply run_events_disarmed.
Qed.

End Arming.

(** The integral left by a flight is still there after the motors were
    switched off and the loop went on ticking. *)
Lemma disable_keeps_reference_and_integral_witness :
  let p := mkProgram (disable true far_below) AwaitKey in
  let evs := [Tick early; Key "w"; Position 0 0 0.5; Key "q"; Tick early] in
  cum_height_err far_below = 200
  /\ enabled (control p) = false
  /\ never_enables evs p = true
  /\ cum_height_err (control (run_events evs p)) = 200.
Proof.
  intros p evs.
  split; [reflexivity|]. split; [reflexivity|]. split; [reflexivity|].
  exact (proj1 (proj2 (disable_keeps_reference_and_integral true far_below
                         evs p) eq_refl eq_refl)).
Defined.

(** ** The waypoint follower *)

Section Follower.

Context {T : Transformations}.

(** What the control law and one iteration of the control loop leave for
    the follower to read. *)
Lemma control_law_frame (s : ControllerThread) :
  pos_ref (control_law s) = pos_ref s
  /\ pos_ref_initial_obj (control_law s) = pos_ref_initial_obj s
  /\ config (control_law s) = config s
  /\ last_time_print (control_law s) = last_time_print s
  /\ err_mag (control_law s)
     = norm3 (v0 (pos_ref s) - v0 (pos s)) (v1 (pos_ref s) - v1 (pos s))
         (v2 (pos_ref s) - v2 (pos s)).
Proof.
  unfold control_law.
  destruct (euler_from_quaternion (attq s)) as [[roll pitch] yaw].
  cbn -[pow]. destruct (enabled s); repeat split.
Qed.

Lemma print_clip_frame (w : World) (s0 : ControllerThread) :
  let s1 := print_at_period w 0.5 (clip_control_signals s0) in
  pos_ref s1 = pos_ref s0
  /\ pos_ref_initial_obj s1 = pos_ref_initial_obj s0
  /\ err_mag s1 = err_mag s0
  /\ config s1
     = (if Rgtb (time_check w - 0.5) (last_time_print s0)
        then config_json w else config s0).
Proof.
  unfold print_at_period, read_config, clip_control_signals.
  cbn -[pow]. destruct (Rgtb _ _); repeat split.
Qed.

Lemma run_iteration_frame (w : World) (s : ControllerThread) :
  pos_ref (run_iteration w s) = pos_ref s
  /\ pos_ref_initial_obj (run_iteration w s) = pos_ref_initial_obj s
  /\ err_mag (run_iteration w s)
     = norm3 (v0 (pos_ref s) - v0 (pos s)) (v1 (pos_ref s) - v1 (pos s))
         (v2 (pos_ref s) - v2 (pos s))
  /\ config (run_iteration w s)
     = (if Rgtb (time_check w - 0.5) (last_time_print s)
        then config_json w else config s).
Proof.
  destruct (control_law_frame s) as (Hp & Hi & Hc & Hl & He).
  pose proof (print_clip_frame w (control_law s)) as H. cbn zeta in H.
  destruct H as (Hp1 & Hi1 & He1 & Hc1).
  rewrite Hp in Hp1. rewrite Hi in Hi1. rewrite He in He1.
  rewrite Hl, Hc in Hc1.
  unfold run_iteration, calc_control_signals.
  destruct (enabled _); cbn [send_setpoint]; repeat split; assumption.
Qed.

Lemma step_follow (key : option ascii) (p : Program) :
  step (Follow key) p
  = mkProgram (snd (fst (coordinates_step key (control p) (place p))))
      (snd (coordinates_step key (control p) (place p))).
Proof.
  cbn [step].
  destruct (coordinates_step key (control p) (place p)) as [[o c] pl].
  reflexivity.
Qed.

End Follower.

(** The flight [disarmed_flight]: the follower waits at the first
    waypoint, the motors are off, the error equals the margin. *)
Lemma disarmed_flight_facts :
  place disarmed_flight = WaitMargin 2 0
  /\ enabled (control disarmed_flight) = false
  /\ err_mag (control disarmed_flight) = 0.1
  /\ config (control disarmed_flight) = example_config
  /\ pos_ref_initial_obj (control disarmed_flight)
     = OtherObject (V3 0.0 0.0 1.0).
Proof.
  unfold disarmed_flight, start. cbn [run_events].
  set (c3 := set_pos (V3 0 0 0.9)
               (set_yaw_ref (radians 0)
                  (rebind_pos_ref (V3 (0 + 0.0) (0 + 0.0) 1)
                     (init example_config)))).
  assert (H : step (Position 0 0 0.9)
                (step (Follow None)
                   (step (Follow None)
                      (mkProgram (init example_config) AwaitKey)))
              = mkProgram c3 (WaitMargin 2 0)) by reflexivity.
  rewrite H. cbn [step control place].
  destruct (run_iteration_frame early c3) as (Hp & Hi & He & Hc).
  split; [reflexivity|].
  split; [rewrite run_iteration_enabled; reflexivity|].
  split; [|split].
  - rewrite He. cbn. unfold norm3.
    replace ((0 + 0.0 - 0) * (0 + 0.0 - 0) + (0 + 0.0 - 0) * (0 + 0.0 - 0)
             + (1 - 0.9) * (1 - 0.9)) with (0.1 * 0.1) by lra.
    apply sqrt_square. lra.
  - rewrite Hc. destruct (Rgtb _ _); reflexivity.
  - rewrite Hi. reflexivity.
Qed.


(** * Further properties of the controller *)

(** ** What the control law reads *)

Section Channels.

Context {T : Transformations}.

Lemma control_law_yawrate_r (s : ControllerThread) :
  yawrate_r (control_law s)
  = - (g_kP (cfg_yaw (config s)) * (degrees (yaw_ref s) - v2 (stab_att s))
       - g_kD (cfg_yaw (config s)) * yawrate s).
Proof.
  unfold control_law.
  destruct (euler_from_quaternion (attq s)) as [[roll pitch] yaw].
  cbn -[pow]. destruct (enabled s); reflexivity.
Qed.




(** X4.  The x and y references act on the pitch and roll commands only,
    the z reference on the thrust command (and the integral) only, and
    the yaw reference on the yaw-rate command only. *)
Theorem channels_are_separate (s : ControllerThread) (f : R -> R)
  (yaw_ref' : R) :
  (let s' := pos_ref_setitem 0 f s in
   thrust_r (control_law s') = thrust_r (control_law s)
   /\ yawrate_r (control_law s') = yawrate_r (control_law s)
   /\ cum_height_err (control_law s') = cum_height_err (control_law s))
  /\ (let s' := pos_ref_setitem 1 f s in
      thrust_r (control_law s') = thrust_r (control_law s)
      /\ yawrate_r (control_law s') = yawrate_r (control_law s)
      /\ cum_height_err (control_law s') = cum_height_err (control_law s))
  /\ (let s' := pos_ref_setitem 2 f s in
      pitch_r (control_law s') = pitch_r (control_law s)
      /\ roll_r (control_law s') = roll_r (control_law s)
      /\ yawrate_r (control_law s') = yawrate_r (control_law s))
  /\ (let s' := set_yaw_ref yaw_ref' s in
      pitch_r (control_law s') = pitch_r (control_law s)
      /\ roll_r (control_law s') = roll_r (control_law s)
      /\ thrust_r (control_law s') = thrust_r (control_law s)
      /\ cum_height_err (control_law s') = cum_height_err (control_law s)).
Proof.
  repeat split;
    try (rewrite !control_law_thrust_r, !control_law_cum_height_err;
         reflexivity);
    try (rewrite !control_law_yawrate_r; reflexivity);
    try (rewrite !control_law_cum_height_err; reflexivity);
    try (rewrite (proj1 (control_law_lateral _)),
           (proj1 (control_law_lateral s)); reflexivity);
    try (rewrite (proj2 (control_law_lateral _)),
           (proj2 (control_law_lateral s)); reflexivity).
Qed.

End Channels.

(** ** Thrust trim, keys and start-up *)

(** X5.  [increase_thrust] never leaves the thrust above 0xffff and
    [decrease_thrust] never leaves it below 0; both keep a thrust in
    [0, 65535] there, and a step up followed by a step down gives the
    thrust back when the step up did not saturate.  The cap of the trim
    is above the controller's own thrust limit. *)
Theorem thrust_trim_bounds (s : ControllerThread) :
  thrust_r (increase_thrust s) <= 65535
  /\ 0 <= thrust_r (decrease_thrust s)
  /\ (0 <= thrust_r s <= 65535 ->
      0 <= thrust_r (increase_thrust s) <= 65535
      /\ 0 <= thrust_r (decrease_thrust s) <= 65535)
  /\ (0 <= thrust_r s <= 65535 - thrust_step ->
      thrust_r (decrease_thrust (increase_thrust s)) = thrust_r s)
  /\ snd thrust_limit < 65535.
Proof.
  unfold increase_thrust, decrease_thrust, thrust_step, thrust_limit.
  cbn [thrust_r set_thrust_r snd].
  split; [apply Rmin_r|]. split; [apply Rmax_l|].
  split; [|split].
  - intros [Hlo Hhi]. unfold Rmin, Rmax.
    destruct (Rle_dec (thrust_r s + 5e3) 65535);
      destruct (Rle_dec 0 (thrust_r s - 5e3)); lra.
  - intros [Hlo Hhi]. unfold Rmin, Rmax.
    destruct (Rle_dec (thrust_r s + 5e3) 65535); [|lra].
    destruct (Rle_dec 0 (thrust_r s + 5e3 - 5e3)); lra.
  - lra.
Qed.

Lemma thrust_trim_bounds_witness :
  let s := set_thrust_r 20000 (init example_config) in
  0 <= thrust_r s <= 65535 - thrust_step
  /\ thrust_r (decrease_thrust (increase_thrust s)) = 20000.
Proof.
  intros s.
  assert (H : 0 <= thrust_r s <= 65535 - thrust_step)
    by (unfold thrust_step; cbn; lra).
  split; [exact H|].
  exact (proj1 (proj2 (proj2 (proj2 (thrust_trim_bounds s)))) H).
Defined.

Lemma handle_key_unhandled (ch : ascii) (s : ControllerThread) :
  handled_key ch = false -> handle_key ch s = (s, true).
Proof.
  unfold handled_key. cbn [existsb]. intros H.
  repeat (apply orb_false_elim in H; destruct H as [?H H]).
  unfold handle_key.
  repeat match goal with
         | Heq : Ascii.eqb ch ?c = false |- _ => rewrite Heq; clear Heq
         end.
  reflexivity.
Qed.

(** X6.  Only the keys e, q and Q arm, disarm or send a setpoint; every
    other key leaves the armed flag, the integral, the estimate and the
    record of setpoints alone.  A key that is not in the key map changes
    nothing at all, and only Q ends the key loop. *)
Theorem keys_that_do_not_arm (ch : ascii) (s : ControllerThread) :
  (arming_key ch = false ->
   enabled (fst (handle_key ch s)) = enabled s
   /\ sent (fst (handle_key ch s)) = sent s
   /\ cum_height_err (fst (handle_key ch s)) = cum_height_err s
   /\ pos (fst (handle_key ch s)) = pos s)
  /\ (handled_key ch = false -> handle_key ch s = (s, true))
  /\ (snd (handle_key ch s) = false <-> ch = "Q"%char).
Proof.
  split; [|split].
  - unfold arming_key. intros H.
    apply orb_false_elim in H as [H HQ]. apply orb_false_elim in H as [He Hq].
    unfold handle_key. rewrite He, Hq, HQ.
    repeat match goal with
           | |- context [Ascii.eqb ch ?c] => destruct (Ascii.eqb ch c)
           end; repeat split.
  - apply handle_key_unhandled.
  - split.
    + destruct (Ascii.eqb_spec ch "Q") as [->|HQ]; [reflexivity|].
      apply Ascii.eqb_neq in HQ. unfold handle_key. rewrite HQ.
      repeat match goal with
             | |- context [Ascii.eqb ch ?c] => destruct (Ascii.eqb ch c)
             end; discriminate.
    + intros ->. reflexivity.
Qed.

Lemma keys_that_do_not_arm_witness :
  arming_key "w" = false
  /\ enabled (fst (handle_key "w" far_below)) = true
  /\ handled_key "x" = false
  /\ handle_key "x" far_below = (far_below, true).
Proof.
  split; [reflexivity|].
  split; [exact (proj1 (proj1 (keys_that_do_not_arm "w" far_below) eq_refl))|].
  split; [reflexivity|].
  exact (proj1 (proj2 (keys_that_do_not_arm "x" far_below)) eq_refl).
Defined.

Lemma handle_key_keeps_binding (ch : ascii) (s : ControllerThread) :
  pos_ref_initial_obj (fst (handle_key ch s)) = pos_ref_initial_obj s.
Proof.
  unfold handle_key.
  repeat match goal with
         | |- context [Ascii.eqb ch ?c] => destruct (Ascii.eqb ch c)
         end; reflexivity.
Qed.

(** X7.  [run] stores in [pos_ref_initial] the very array it stores in
    [pos_ref].  So after a successful start-up the keys that move the
    reference move [pos_ref_initial] with it: after any key the two are
    still equal, and after the key w the x coordinate of
    [pos_ref_initial] is 0.1 larger. *)
Theorem keys_move_initial_reference (ch : ascii) (s : ControllerThread) :
  fst (run_setup s) = Returned ->
  let s1 := snd (run_setup s) in
  pos_ref_initial s1 = V3 (v0 (pos s)) (v1 (pos s)) 1.0
  /\ pos_ref_initial (fst (handle_key ch s1)) = pos_ref (fst (handle_key ch s1))
  /\ v0 (pos_ref_initial (fst (handle_key "w" s1))) = v0 (pos s) + 0.1.
Proof.
  intros Hok s1.
  assert (Hobj : pos_ref_initial_obj s1 = SameObject
                 /\ pos_ref s1 = V3 (v0 (pos s)) (v1 (pos s)) 1.0).
  { subst s1. revert Hok. unfold run_setup, make_position_sanity_check.
    destruct (_ || _); [discriminate|]. intros _. split; reflexivity. }
  destruct Hobj as [Hobj Href].
  split; [|split].
  - unfold pos_ref_initial. rewrite Hobj. exact Href.
  - unfold pos_ref_initial. rewrite handle_key_keeps_binding, Hobj. reflexivity.
  - unfold pos_ref_initial. rewrite handle_key_keeps_binding, Hobj.
    cbn. rewrite Href. reflexivity.
Qed.

Lemma keys_move_initial_reference_witness :
  let s := set_pos (V3 1 2 0.5) (init example_config) in
  fst (run_setup s) = Returned
  /\ v0 (pos_ref_initial (fst (handle_key "w" (snd (run_setup s))))) = 1 + 0.1.
Proof.
  intros s.
  assert (Hok : fst (run_setup s) = Returned).
  { unfold run_setup, make_position_sanity_check. cbn [pos set_pos v0 v1 v2 s].
    rewrite Rgtb_le, Rltb_ge, Rgtb_le; try lra; [reflexivity|].
    apply Rmax_lub; apply Rabs_le; lra. }
  split; [exact Hok|].
  exact (proj2 (proj2 (keys_move_initial_reference "w" s Hok))).
Defined.


(** ** More on the waypoint follower *)


Lemma coordinates_step_waypoint (key : option ascii) (s : ControllerThread)
  (len n : nat) (x y z yaw : R) :
  (n < len)%nat ->
  nth_error (co_x (cfg_coordinates (config s))) n = Some x ->
  nth_error (co_y (cfg_coordinates (config s))) n = Some y ->
  nth_error (co_z (cfg_coordinates (config s))) n = Some z ->
  nth_error (co_yaw (cfg_coordinates (config s))) n = Some yaw ->
  coordinates_step key s (LoopHead len n)
  = (Returned,
     set_yaw_ref (radians yaw)
       (rebind_pos_ref
          (waypoint_target (cfg_coordinates (config s)) (pos_ref_initial s)
             x y z) s),
     WaitMargin len n).
Proof.
  intros Hn Hx Hy Hz Hyaw. cbn -[Nat.ltb].
  apply Nat.ltb_lt in Hn. rewrite Hn, Hx, Hy, Hz, Hyaw.
  unfold waypoint_target. destruct (co_relative _); reflexivity.
Qed.



(** X10.  When the waypoint lists of the configuration do not all have
    an entry [n], the follower raises [IndexError] at waypoint [n]: it
    changes nothing, does not call [disable], and its thread takes no
    further step, so a controller that was armed stays armed. *)
Theorem follower_index_error (key key' : option ascii) (s : ControllerThread)
  (len n : nat) :
  (n < len)%nat ->
  nth_error (co_x (cfg_coordinates (config s))) n = None
  \/ nth_error (co_y (cfg_coordinates (config s))) n = None
  \/ nth_error (co_z (cfg_coordinates (config s))) n = None
  \/ nth_error (co_yaw (cfg_coordinates (config s))) n = None ->
  coordinates_step key s (LoopHead len n) = (Raised IndexError, s, Aborted)
  /\ coordinates_step key' s Aborted = (Returned, s, Aborted).
Proof.
  intros Hn Hnone. split; [|reflexivity].
  cbn -[Nat.ltb]. apply Nat.ltb_lt in Hn. rewrite Hn.
  destruct (nth_error (co_x _) n); [|reflexivity].
  destruct (nth_error (co_y _) n); [|reflexivity].
  destruct (nth_error (co_z _) n); [|reflexivity].
  destruct (nth_error (co_yaw _) n); [|reflexivity].
  destruct Hnone as [H|[H|[H|H]]]; discriminate.
Qed.

Lemma follower_index_error_witness :
  let s := enable (init ragged_config) in
  coordinates_step None s (LoopHead 2 1) = (Raised IndexError, s, Aborted)
  /\ enabled s = true.
Proof.
  intros s. split; [|reflexivity].
  refine (proj1 (follower_index_error None None s 2 1 _ _)).
  - lia.
  - right. left. reflexivity.
Defined.

Section Stale.

Context {T : Transformations}.

(** X11.  [err_mag] is written by the control loop only.  So when the
    follower has passed one waypoint and no tick comes in between, it
    sets the next waypoint and passes it at once, on the error of the
    previous one. *)
Theorem follower_passes_on_stale_error (k1 k2 k3 : option ascii)
  (p : Program) (len n : nat) (x y z yaw : R) :
  let co := cfg_coordinates (config (control p)) in
  place p = Settle len n ->
  (S n < len)%nat ->
  nth_error (co_x co) (S n) = Some x ->
  nth_error (co_y co) (S n) = Some y ->
  nth_error (co_z co) (S n) = Some z ->
  nth_error (co_yaw co) (S n) = Some yaw ->
  err_mag (control p) <= cfg_waypoint_margin (config (control p)) ->
  let p' := run_events [Follow k1; Follow k2; Follow k3] p in
  place p' = Settle len (S n)
  /\ pos_ref (control p')
     = waypoint_target co (pos_ref_initial (control p)) x y z
  /\ err_mag (control p') = err_mag (control p)
  /\ pos (control p') = pos (control p).
Proof.
  intros co Hpl Hn Hx Hy Hz Hyaw Herr p'. subst p' co.
  destruct p as [s pl]. cbn [control place] in *. subst pl.
  cbn [run_events].
  assert (H1 : step (Follow k1) (mkProgram s (Settle len n))
               = mkProgram s (LoopHead len (S n))) by reflexivity.
  rewrite H1, (step_follow k2). cbn [control place].
  rewrite (coordinates_step_waypoint k2 s len (S n) x y z yaw Hn Hx Hy Hz Hyaw).
  cbn [fst snd]. rewrite step_follow. cbn [control place].
  set (s2 := set_yaw_ref _ _).
  assert (H2 : err_mag s2 = err_mag s /\ config s2 = config s
               /\ pos s2 = pos s
               /\ pos_ref s2
                  = waypoint_target (cfg_coordinates (config s))
                      (pos_ref_initial s) x y z).
  { unfold s2, rebind_pos_ref. destruct (pos_ref_initial_obj s); repeat split. }
  destruct H2 as (He & Hc & Hp & Hr).
  cbn [coordinates_step]. rewrite He, Hc, Rgtb_le by exact Herr.
  cbn [fst snd]. repeat split; assumption.
Qed.

(** X12.  With an empty waypoint list the follower, once the key e has
    armed the controller, disarms it at its next step: two zero
    setpoints are sent and nothing else. *)
Theorem follower_without_waypoints (k : option ascii) (s : ControllerThread) :
  co_x (cfg_coordinates (config s)) = [] ->
  let p' := run_events [Follow (Some "e"%char); Follow k]
              (mkProgram s AwaitKey) in
  place p' = Finished
  /\ enabled (control p') = false
  /\ sent (control p') = sent s ++ [zero_setpoint; zero_setpoint]
  /\ pos_ref (control p') = pos_ref s.
Proof.
  intros Hx p'. subst p'. cbn [run_events]. rewrite !step_follow.
  cbn [control place coordinates_step fst snd Ascii.eqb Bool.eqb].
  cbn -[Nat.ltb]. rewrite Hx. cbn.
  repeat split. rewrite <- app_assoc. reflexivity.
Qed.

End Stale.

Lemma follower_passes_on_stale_error_witness :
  let p := mkProgram (control disarmed_flight) (Settle 2 0) in
  place (run_events [Follow None; Follow None; Follow None] p) = Settle 2 1.
Proof.
  intros p.
  destruct disarmed_flight_facts as (_ & _ & Herr & Hcfg & _).
  refine (proj1 (follower_passes_on_stale_error None None None p 2 0 1 0 1 0
                   eq_refl _ _ _ _ _ _)).
  - lia.
  - cbn [control p]. rewrite Hcfg. reflexivity.
  - cbn [control p]. rewrite Hcfg. reflexivity.
  - cbn [control p]. rewrite Hcfg. reflexivity.
  - cbn [control p]. rewrite Hcfg. reflexivity.
  - cbn [control p]. rewrite Herr, Hcfg. apply Rle_refl.
Defined.

Lemma follower_without_waypoints_witness :
  let p' := run_events [Follow (Some "e"%char); Follow None]
              (start empty_config) in
  place p' = Finished /\ enabled (control p') = false.
Proof.
  intros p'.
  destruct (follower_without_waypoints None (init empty_config) eq_refl)
    as (Hpl & Hen & _).
  split; [exact Hpl | exact Hen].
Defined.

(** ** The error magnitude *)






Section ErrorMagnitude.

Context {T : Transformations}.



End ErrorMagnitude.

(** ** Thrust: tilt compensation and the integral *)

Lemma radians_quarter_turn (d : R) :
  -90 < d < 90 -> - (PI / 2) < d * (PI / 180) < PI / 2.
Proof.
  intros [Hlo Hhi]. pose proof PI_RGT_0 as Hpi. split; nra.
Qed.

Section Thrust.

Context {T : Transformations}.

(** X15.  For measured roll and pitch strictly between -90 and 90
    degrees the divisor [cos roll * cos pitch] lies in (0, 1]: the thrust
    before clamping is the thrust of the level vehicle divided by it, so
    tilt never lowers the magnitude of the thrust command nor changes
    its sign. *)
Theorem tilt_compensation (s : ControllerThread) :
  -90 < v0 (stab_att s) < 90 ->
  -90 < v1 (stab_att s) < 90 ->
  let c := cos (v0 (stab_att s) * (PI / 180))
           * cos (v1 (stab_att s) * (PI / 180)) in
  let level := thrust_r (control_law (levelled s)) in
  0 < c <= 1
  /\ thrust_r (control_law s) = level / c
  /\ Rabs level <= Rabs (thrust_r (control_law s))
  /\ 0 <= level * thrust_r (control_law s).
Proof.
  intros Hr Hp c level.
  assert (Hc1 : 0 < cos (v0 (stab_att s) * (PI / 180)) <= 1).
  { split; [apply cos_gt_0; apply radians_quarter_turn; exact Hr
           | apply COS_bound]. }
  assert (Hc2 : 0 < cos (v1 (stab_att s) * (PI / 180)) <= 1).
  { split; [apply cos_gt_0; apply radians_quarter_turn; exact Hp
           | apply COS_bound]. }
  assert (Hc : 0 < c <= 1) by (unfold c; split; nra).
  assert (Hlevel : thrust_r (control_law s) = level / c).
  { unfold level, c. rewrite !control_law_thrust_r.
    rewrite !control_law_cum_height_err.
    unfold levelled. cbn -[pow].
    rewrite cos_zero_degrees. field. lra. }
  split; [exact Hc|]. split; [exact Hlevel|].
  rewrite Hlevel.
  assert (Hinv : 1 <= / c).
  { rewrite <- Rinv_1. apply Rinv_le_contravar; lra. }
  split.
  - unfold Rdiv. rewrite Rabs_mult. rewrite (Rabs_pos_eq (/ c)) by lra.
    pose proof (Rabs_pos level). nra.
  - unfold Rdiv. assert (0 <= level * level) by nra. nra.
Qed.

(** X16.  On an armed tick, with the integral within its limits, a
    non-negative height error never lowers the integral and a
    non-positive one never raises it; the integral stops at 200 and at
    -200, and it leaves a limit as soon as the error changes sign. *)
Theorem integral_follows_error (w : World) (s : ControllerThread) :
  enabled s = true ->
  -200 <= cum_height_err s <= 200 ->
  let e_z := v2 (pos_ref s) - v2 (pos s) in
  let c' := cum_height_err (calc_control_signals w s) in
  (0 <= e_z -> cum_height_err s <= c')
  /\ (e_z <= 0 -> c' <= cum_height_err s)
  /\ (200 <= cum_height_err s + e_z -> c' = 200)
  /\ (cum_height_err s + e_z <= -200 -> c' = -200)
  /\ (-200 <= cum_height_err s + e_z <= 200 -> c' = cum_height_err s + e_z).
Proof.
  intros He Hb e_z c'. subst c'.
  rewrite calc_control_signals_cum_height_err, control_law_cum_height_err, He.
  fold e_z. unfold clip, Rmin, Rmax.
  destruct (Rle_dec (cum_height_err s + e_z) (-200));
    destruct (Rle_dec (-200) 200); try lra;
    destruct (Rle_dec (cum_height_err s + e_z) 200);
    repeat split; intros; lra.
Qed.

End Thrust.

Lemma tilt_compensation_witness :
  let s := set_stab_att (V3 30 (-45) 10) (init example_config) in
  Rabs (thrust_r (control_law (levelled s))) <= Rabs (thrust_r (control_law s)).
Proof.
  intros s.
  refine (proj1 (proj2 (proj2 (tilt_compensation s _ _)))); cbn; lra.
Defined.

Lemma integral_follows_error_witness :
  enabled far_below = true
  /\ -200 <= cum_height_err far_below <= 200
  /\ cum_height_err (calc_control_signals early far_below) = 200.
Proof.
  assert (He : enabled far_below = true) by reflexivity.
  assert (Hb : -200 <= cum_height_err far_below <= 200) by (cbn; lra).
  split; [exact He|]. split; [exact Hb|].
  refine (proj1 (proj2 (proj2 (integral_follows_error early far_below He Hb)))
            _).
  cbn. lra.
Defined.

(** ** Configuration reload, telemetry and timing *)

Section Reload.

Context {T : Transformations}.

Lemma calc_control_signals_reload (w : World) (s : ControllerThread) :
  let reload := Rgtb (time_check w - 0.5) (last_time_print s) in
  config (calc_control_signals w s)
  = (if reload then config_json w else config s)
  /\ last_time_print (calc_control_signals w s)
     = (if reload then time_stamp w else last_time_print s).
Proof.
  destruct (control_law_frame s) as (_ & _ & Hc & Hl & _).
  rewrite <- Hc, <- Hl. unfold calc_control_signals.
  generalize (control_law s). intros s0.
  unfold print_at_period, read_config, clip_control_signals. cbn -[pow].
  destruct (Rgtb _ _); split; reflexivity.
Qed.

(** X17.  A tick reads [config.json] only when more than half a second
    has passed since the last reading, and then only after it has
    computed its outputs: the outputs and the integral of a tick do not
    depend on the file read in that tick, and a tick that comes at most
    half a second after a reading keeps the configuration read then. *)
Theorem config_reload (w w' : World) (s : ControllerThread) :
  (outputs (calc_control_signals w s) = outputs (calc_control_signals w' s)
   /\ cum_height_err (calc_control_signals w s)
      = cum_height_err (calc_control_signals w' s))
  /\ (time_check w - 0.5 > last_time_print s ->
      config (calc_control_signals w s) = config_json w
      /\ last_time_print (calc_control_signals w s) = time_stamp w)
  /\ (time_check w - 0.5 <= last_time_print s ->
      config (calc_control_signals w s) = config s
      /\ last_time_print (calc_control_signals w s) = last_time_print s)
  /\ (time_check w - 0.5 > last_time_print s ->
      time_check w' <= time_stamp w + 0.5 ->
      config (calc_control_signals w' (calc_control_signals w s))
      = config_json w).
Proof.
  pose proof (calc_control_signals_reload w s) as H. cbn zeta in H.
  destruct H as [Hc Hl].
  split; [split|split; [|split]].
  - unfold outputs.
    destruct (calc_control_signals_outputs w s) as (-> & -> & -> & ->).
    destruct (calc_control_signals_outputs w' s) as (-> & -> & -> & ->).
    reflexivity.
  - rewrite !calc_control_signals_cum_height_err. reflexivity.
  - intros Hgt. rewrite Hc, Hl, Rgtb_gt by exact Hgt. split; reflexivity.
  - intros Hle. rewrite Hc, Hl, Rgtb_le by exact Hle. split; reflexivity.
  - intros Hgt Hsoon.
    rewrite Rgtb_gt in Hc, Hl by exact Hgt.
    pose proof (calc_control_signals_reload w' (calc_control_signals w s)) as H.
    cbn zeta in H. destruct H as [Hc' _].
    rewrite Hc', Hl, Rgtb_le by lra. exact Hc.
Qed.

Lemma run_iteration_attitude (w : World) (s : ControllerThread) :
  attq (run_iteration w s) = attq s /\ rotR (run_iteration w s) = rotR s.
Proof.
  assert (H : attq (control_law s) = attq s /\ rotR (control_law s) = rotR s).
  { unfold control_law.
    destruct (euler_from_quaternion (attq s)) as [[roll pitch] yaw].
    cbn -[pow]. destruct (enabled s); split; reflexivity. }
  destruct H as [Ha Hr]. rewrite <- Ha, <- Hr.
  unfold run_iteration, calc_control_signals, print_at_period, read_config,
    clip_control_signals.
  generalize (control_law s). intros s0. cbn -[pow].
  destruct (Rgtb _ _); cbn -[pow]; destruct (enabled s0); split; reflexivity.
Qed.

Lemma handle_key_attitude (ch : ascii) (s : ControllerThread) :
  attq (fst (handle_key ch s)) = attq s /\ rotR (fst (handle_key ch s)) = rotR s.
Proof.
  unfold handle_key.
  repeat match goal with
         | |- context [Ascii.eqb ch ?c] => destruct (Ascii.eqb ch c)
         end; split; reflexivity.
Qed.

Lemma coordinates_step_attitude (key : option ascii) (s : ControllerThread)
  (pl : Place) :
  let c := snd (fst (coordinates_step key s pl)) in
  attq c = attq s /\ rotR c = rotR s.
Proof.
  destruct pl as [|len n|len n|len n| |]; cbn -[Nat.ltb].
  - destruct key as [ch|]; [destruct (Ascii.eqb ch "e")|]; split; reflexivity.
  - destruct (n <? len)%nat; [|split; reflexivity].
    destruct (nth_error (co_x _) n); [|split; reflexivity].
    destruct (nth_error (co_y _) n); [|split; reflexivity].
    destruct (nth_error (co_z _) n); [|split; reflexivity].
    destruct (nth_error (co_yaw _) n); [|split; reflexivity].
    unfold rebind_pos_ref. destruct (pos_ref_initial_obj s); split; reflexivity.
  - destruct (Rgtb _ _); split; reflexivity.
  - split; reflexivity.
  - split; reflexivity.
  - split; reflexivity.
Qed.

Lemma step_rotation_matrix (ev : Event) (p : Program) :
  rotR (control p) = quaternion_matrix (attq (control p)) ->
  rotR (control (step ev p)) = quaternion_matrix (attq (control (step ev p))).
Proof.
  destruct p as [s pl]. cbn [control]. intros H.
  destruct ev; cbn [step control place]; try exact H.
  - destruct (run_iteration_attitude w s) as [-> ->]. exact H.
  - unfold run_setup, make_position_sanity_check.
    destruct (_ || _); exact H.
  - reflexivity.
  - destruct (handle_key_attitude ch s) as [-> ->]. exact H.
  - pose proof (coordinates_step_attitude key s pl) as Ha.
    destruct (coordinates_step key s pl) as [[o c] pl'].
    cbn [fst snd control] in *. destruct Ha as [-> ->]. exact H.
Qed.

(** X18.  The rotation matrix is always the one of the stored attitude
    quaternion: provided [quaternion_matrix] maps the quaternion the
    constructor stores, (0, 0, 0, 1), to the identity matrix, [R] equals
    [quaternion_matrix(attq)[:3, :3]] in every run of the program. *)
Theorem rotation_matrix_follows_quaternion (file : Config)
  (evs : list Event) :
  quaternion_matrix (V4 0.0 0.0 0.0 1.0) = eye3 ->
  let s := control (run_events evs (start file)) in
  rotR s = quaternion_matrix (attq s).
Proof.
  intros Hid s. subst s.
  assert (Hstart : rotR (control (start file))
                   = quaternion_matrix (attq (control (start file))))
    by (symmetry; exact Hid).
  revert Hstart. generalize (start file). clear Hid.
  induction evs as [|ev evs IH]; intros p Hp; cbn [run_events].
  - exact Hp.
  - apply IH. apply step_rotation_matrix. exact Hp.
Qed.

(** X19.  The velocity callback turns the body-frame velocity with the
    rotation matrix of the latest attitude sample: after an attitude
    sample (q0, q1, q2, q3), stored with the real part last, a velocity
    sample is stored as [quaternion_matrix (q1, q2, q3, q0)] times the
    sample; while the matrix is the identity it is stored as it comes. *)
Theorem velocity_uses_latest_attitude (q0 q1 q2 q3 px py pz gz : R)
  (s : ControllerThread) :
  let s' := _log_data_vel px py pz gz (_log_data_att q0 q1 q2 q3 s) in
  attq s' = V4 q1 q2 q3 q0
  /\ vel s' = mat_vec (quaternion_matrix (V4 q1 q2 q3 q0)) (V3 px py pz)
  /\ yawrate s' = gz
  /\ (rotR s = eye3 -> vel (_log_data_vel px py pz gz s) = V3 px py pz).
Proof.
  intros s'. subst s'.
  split; [reflexivity|]. split; [reflexivity|]. split; [reflexivity|].
  intros Hid. unfold _log_data_vel. cbn. rewrite Hid.
  unfold mat_vec, vdot. cbn. f_equal; ring.
Qed.

End Reload.

Lemma quaternion_matrix_identity :
  Trans.quaternion_matrix (V4 0.0 0.0 0.0 1.0) = eye3.
Proof.
  replace (V4 0.0 0.0 0.0 1.0) with (V4 0 0 0 1) by (f_equal; lra).
  rewrite quaternion_matrix_yaw_only by lra.
  unfold eye3. f_equal; f_equal; lra.
Qed.

Lemma config_reload_witness :
  let late := mkWorld 1 1 no_lateral_gain_config in
  let soon := mkWorld 1.2 1.2 example_config in
  let s := init example_config in
  time_check late - 0.5 > last_time_print s
  /\ time_check soon <= time_stamp late + 0.5
  /\ config (calc_control_signals soon (calc_control_signals late s))
     = no_lateral_gain_config.
Proof.
  intros late soon s.
  assert (H1 : time_check late - 0.5 > last_time_print s) by (cbn; lra).
  assert (H2 : time_check soon <= time_stamp late + 0.5) by (cbn; lra).
  split; [exact H1|]. split; [exact H2|].
  exact (proj2 (proj2 (proj2 (config_reload late soon s))) H1 H2).
Defined.

Lemma rotation_matrix_follows_quaternion_witness :
  let s := control (run_events [Attitude 1 0 0 0; Tick early; Key "e"]
                      (start example_config)) in
  rotR s = Trans.quaternion_matrix (attq s).
Proof.
  exact (rotation_matrix_follows_quaternion example_config
           [Attitude 1 0 0 0; Tick early; Key "e"] quaternion_matrix_identity).
Defined.

Lemma velocity_uses_latest_attitude_witness :
  vel (_log_data_vel 1 2 3 0 (init example_config)) = V3 1 2 3.
Proof.
  exact (proj2 (proj2 (proj2
           (velocity_uses_latest_attitude 1 0 0 0 1 2 3 0
              (init example_config)))) eq_refl).
Defined.

(** X20.  [loop_sleep] sleeps only for a positive time, and then the
    iteration and the sleep together last exactly one period of 20 ms;
    when the iteration took the period or longer it does not sleep and
    reports by how much the deadline was missed. *)
Theorem loop_sleep_fills_period (time_start now : R) :
  let elapsed := now - time_start in
  match loop_sleep time_start now with
  | Sleeps delta_time =>
      0 < delta_time /\ elapsed + delta_time = 0.02 /\ elapsed < 0.02
  | DeadlineMissed seconds =>
      0 <= seconds /\ elapsed = 0.02 + seconds
  end.
Proof.
  intros elapsed. unfold loop_sleep, period_in_ms. fold elapsed.
  destruct (Rgtb_spec (1e-3 * 20 - elapsed) 0) as [Hgt|Hle];
    repeat split; lra.
Qed.


(** ** Arming and disarming, composed *)

Section ArmingComposed.

Context {T : Transformations}.

(** X21.  [disable(stop=False)], as the constructor calls it, sends
    nothing and sets the attributes as [disable()] does.  [enable]
    leaves the reference and the stored outputs alone, and a second
    [enable] changes no attribute.  After [disable] and [enable] the
    stored outputs are still zero, and the first tick then starts the
    integral anew: it is the height error of that tick, clipped. *)
Theorem arming_composed (w : World) (stop : bool) (s : ControllerThread) :
  (sent (disable false s) = sent s
   /\ same_attributes (disable false s) (disable true s))
  /\ (outputs (enable s) = outputs s
      /\ pos_ref (enable s) = pos_ref s /\ yaw_ref (enable s) = yaw_ref s)
  /\ same_attributes (enable (enable s)) (enable s)
  /\ outputs (enable (disable stop s)) = (0.0, 0.0, 0.0, thrust_initial)
  /\ cum_height_err (calc_control_signals w (enable s))
     = clip (v2 (pos_ref s) - v2 (pos s)) (-200) 200.
Proof.
  split; [split; [reflexivity|]|].
  { unfold same_attributes, set_sent. cbn. reflexivity. }
  split; [repeat split|].
  split.
  { unfold same_attributes, set_sent. cbn. reflexivity. }
  split.
  { destruct stop; reflexivity. }
  rewrite calc_control_signals_cum_height_err, control_law_cum_height_err.
  cbn. rewrite Rplus_0_l. reflexivity.
Qed.

End ArmingComposed.

(** * Properties over IEEE values *)

Import IEEE.

(** ** Comparisons and [np.clip] *)

Lemma gtb_not_nan (x y : float64) :
  gtb x y = true -> is_nan x = false /\ is_nan y = false.
Proof. destruct x, y; cbn; intros H; try discriminate; auto. Qed.

Lemma ltb_leb (x y : float64) : ltb x y = true -> leb x y = true.
Proof.
  destruct x as [a| | |], y as [b| | |]; cbn; intros H; try discriminate;
    try reflexivity.
  destruct (Rltb_spec a b) as [Hab|Hab]; [|discriminate].
  rewrite Rltb_ge by lra. reflexivity.
Qed.

(** The test [x > y] fails when [x <= y], and when one of them is NaN. *)
Lemma gtb_false_iff (x y : float64) :
  gtb x y = false <-> leb x y = true \/ is_nan x = true \/ is_nan y = true.
Proof.
  destruct x as [a| | |], y as [b| | |]; cbn; split; intros H; auto;
    try discriminate;
    try (destruct H as [H|[H|H]]; discriminate);
    try (destruct H as [H|[H|H]]; try discriminate; reflexivity).
  - left. rewrite H. reflexivity.
  - destruct H as [H|[H|H]]; try discriminate.
    destruct (Rltb b a); [discriminate | reflexivity].
Qed.

Lemma np_clip_nan (a lo hi : float64) :
  is_nan a = true -> np_clip a lo hi = a.
Proof. destruct a; cbn; intros H; try discriminate. reflexivity. Qed.

(** The three cases of a clip that is not NaN. *)
Lemma np_clip_cases (a : float64) (lo hi : R) :
  lo <= hi ->
  is_nan a = false ->
  (gtb a (Num lo) = false -> np_clip a (Num lo) (Num hi) = Num lo)
  /\ (gtb a (Num lo) = true -> ltb a (Num hi) = true ->
      np_clip a (Num lo) (Num hi) = a)
  /\ (ltb a (Num hi) = false -> np_clip a (Num lo) (Num hi) = Num hi).
Proof.
  intros Hle Hnan. unfold np_clip. rewrite Hnan.
  destruct a as [r| | |]; try discriminate; cbn.
  - destruct (Rltb_spec lo r) as [H1|H1]; cbn.
    + destruct (Rltb_spec r hi) as [H2|H2]; cbn.
      * repeat split; intros; try discriminate; reflexivity.
      * repeat split; intros; try discriminate; reflexivity.
    + destruct (Rltb_spec lo hi) as [H3|H3]; cbn.
      * split; [reflexivity|]. split; [discriminate|].
        destruct (Rltb_spec r hi) as [H2|H2]; [discriminate|].
        exfalso. lra.
      * assert (Heq : Num hi = Num lo) by (f_equal; lra).
        split; [intros _; exact Heq|]. split; [discriminate|].
        reflexivity.
  - split; [discriminate|]. split; [intros _; discriminate | reflexivity].
  - destruct (Rltb_spec lo hi) as [H3|H3]; cbn.
    + split; [reflexivity|]. split; discriminate.
    + assert (Heq : Num hi = Num lo) by (f_equal; lra).
      split; [intros _; exact Heq|]. split; discriminate.
Qed.

Lemma np_clip_in_range (a : float64) (lo hi : R) :
  lo <= hi -> is_nan a = false -> in_range lo hi (np_clip a (Num lo) (Num hi)).
Proof.
  intros Hle Hnan. unfold in_range, np_clip. rewrite Hnan.
  destruct a as [r| | |]; try discriminate; cbn.
  - destruct (Rltb_spec lo r) as [H1|H1]; cbn.
    + destruct (Rltb_spec r hi) as [H2|H2]; cbn.
      * rewrite !Rltb_ge by lra. split; reflexivity.
      * rewrite !Rltb_ge by lra. split; reflexivity.
    + destruct (Rltb_spec lo hi) as [H3|H3]; cbn;
        rewrite !Rltb_ge by lra; split; reflexivity.
  - rewrite !Rltb_ge by lra. split; reflexivity.
  - destruct (Rltb_spec lo hi) as [H3|H3]; cbn;
      rewrite !Rltb_ge by lra; split; reflexivity.
Qed.

Lemma in_range_not_nan (lo hi : R) (x : float64) :
  in_range lo hi x -> is_nan x = false.
Proof. unfold in_range. destruct x; cbn; intros [H1 H2]; try reflexivity; discriminate. Qed.

(** What a clipped output can be. *)
Lemma np_clip_output (a : float64) (lo hi : R) :
  lo <= hi ->
  if is_nan a then is_nan (np_clip a (Num lo) (Num hi)) = true
  else in_range lo hi (np_clip a (Num lo) (Num hi)).
Proof.
  intros Hle. destruct (is_nan a) eqn:Hnan.
  - rewrite np_clip_nan by exact Hnan. exact Hnan.
  - apply np_clip_in_range; assumption.
Qed.

(** ** The control law over IEEE values *)

Section IEEEControlLaw.

Context {A : Arithmetic}.

(** What the control law leaves alone, and what it does to the error
    magnitude and to the integral, whether it returns or raises. *)
Lemma ieee_control_law_frame (s : ControllerThread) :
  let s' := snd (control_law s) in
  (enabled s' = enabled s /\ sent s' = sent s /\ config s' = config s
   /\ last_time_print s' = last_time_print s)
  /\ (pos s' = pos s /\ pos_ref s' = pos_ref s
      /\ pos_ref_initial_obj s' = pos_ref_initial_obj s
      /\ yaw_ref s' = yaw_ref s)
  /\ err_mag s'
     = norm3 (fsub (v0 (pos_ref s)) (v0 (pos s)))
         (fsub (v1 (pos_ref s)) (v1 (pos s)))
         (fsub (v2 (pos_ref s)) (v2 (pos s)))
  /\ cum_height_err s'
     = (if enabled s
        then np_clip (fadd (cum_height_err s)
                        (fsub (v2 (pos_ref s)) (v2 (pos s))))
               (Num (-200)) (Num 200)
        else cum_height_err s).
Proof.
  unfold control_law.
  destruct (euler_from_quaternion (attq s)) as [[roll pitch] yaw].
  cbn -[lookup getitem2 np_clip pow].
  destruct (enabled s) eqn:He; cbn -[lookup getitem2 np_clip pow].
  all: lookups.
  all: cbn -[np_clip pow]; rewrite ?He; repeat split.
Qed.

(** The control law returns exactly when the configuration has every
    key it reads. *)
Lemma ieee_control_law_returns (s : ControllerThread) :
  fst (control_law s) = Returned <-> has_gains (config s) = true.
Proof.
  unfold control_law, has_gains.
  destruct (euler_from_quaternion (attq s)) as [[roll pitch] yaw].
  cbn -[lookup getitem2 np_clip pow forallb].
  destruct (enabled s) eqn:He; cbn -[lookup getitem2 np_clip pow forallb].
  all: lookups.
  all: cbn; split; intro; try reflexivity; discriminate.
Qed.

(** The only exception of the control law is the [KeyError] of a
    missing key. *)
Lemma ieee_control_law_raises (s : ControllerThread) :
  fst (control_law s) = Returned \/ fst (control_law s) = Raised KeyError.
Proof.
  unfold control_law.
  destruct (euler_from_quaternion (attq s)) as [[roll pitch] yaw].
  cbn -[lookup getitem2 np_clip pow].
  destruct (enabled s) eqn:He; cbn -[lookup getitem2 np_clip pow].
  all: lookups.
  all: cbn; auto.
Qed.

(** The lateral commands the control law stores when it returns. *)
Lemma ieee_control_law_lateral (s : ControllerThread) :
  has_gains (config s) = true ->
  let yaw := snd (euler_from_quaternion (attq s)) in
  let k_p := value (getitem2 cfg_pitchroll g_kP (config s)) in
  let k_d := value (getitem2 cfg_pitchroll g_kD (config s)) in
  let pitch :=
    fmul (Num 20)
      (fsub (fmul k_p (fsub (v0 (pos_ref s)) (v0 (pos s))))
         (fmul k_d (v0 (vel s)))) in
  let roll :=
    fmul (Num (-20))
      (fsub (fmul k_p (fsub (v1 (pos_ref s)) (v1 (pos s))))
         (fmul k_d (v1 (vel s)))) in
  pitch_r (snd (control_law s))
  = fadd (fmul (fcos yaw) pitch) (fmul (fneg (fsin yaw)) roll)
  /\ roll_r (snd (control_law s))
     = fadd (fmul (fsin yaw) pitch) (fmul (fcos yaw) roll).
Proof.
  unfold control_law, has_gains.
  destruct (euler_from_quaternion (attq s)) as [[roll pitch] yaw].
  cbn -[lookup getitem2 np_clip pow forallb].
  destruct (enabled s) eqn:He; cbn -[lookup getitem2 np_clip pow forallb].
  all: lookups.
  all: cbn -[np_clip pow]; intros Hgains; try discriminate; split; reflexivity.
Qed.

(** The thrust the control law stores when it returns. *)
Lemma ieee_control_law_thrust (s : ControllerThread) :
  has_gains (config s) = true ->
  let k_p := value (getitem2 cfg_thrust g_kP (config s)) in
  let k_d := value (getitem2 cfg_thrust g_kD (config s)) in
  let k_i := value (getitem2 cfg_thrust g_kI (config s)) in
  let c := value (getitem2 cfg_thrust g_C (config s)) in
  let mg := fmul (value (cfg_m (config s))) (value (cfg_g (config s))) in
  let ez := fsub (v2 (pos_ref s)) (v2 (pos s)) in
  let cum := cum_height_err (snd (control_law s)) in
  thrust_r (snd (control_law s))
  = fdiv
      (fmul
         (fmul (fmul (Num 4) c)
            (fadd (fadd (fsub (fmul k_p ez) (fmul k_d (v2 (vel s)))) mg)
               (fmul k_i cum)))
         (Num (2 ^ 16)))
      (fmul (fcos (radians (v0 (stab_att s))))
         (fcos (radians (v1 (stab_att s))))).
Proof.
  unfold control_law, has_gains.
  destruct (euler_from_quaternion (attq s)) as [[roll pitch] yaw].
  cbn -[lookup getitem2 np_clip pow forallb].
  destruct (enabled s) eqn:He; cbn -[lookup getitem2 np_clip pow forallb].
  all: lookups.
  all: cbn -[np_clip pow]; intros Hgains; try discriminate; reflexivity.
Qed.

(** [calc_control_signals] after the control law: the outputs are
    clipped when the control law returned, and nothing else that the
    statements below speak of is touched. *)
Lemma ieee_calc_control_signals (w : World) (s : ControllerThread) :
  let raw := snd (control_law s) in
  let s' := snd (calc_control_signals w s) in
  fst (calc_control_signals w s) = fst (control_law s)
  /\ (fst (control_law s) = Returned ->
      roll_r s' = np_clip (roll_r raw) (Num (-30.0)) (Num 30.0)
      /\ pitch_r s' = np_clip (pitch_r raw) (Num (-30.0)) (Num 30.0)
      /\ yawrate_r s' = np_clip (yawrate_r raw) (Num (-200.0)) (Num 200.0)
      /\ thrust_r s' = np_clip (thrust_r raw) (Num 0) (Num (0.8 * 2 ^ 16 - 1)))
  /\ (enabled s' = enabled raw /\ sent s' = sent raw
      /\ cum_height_err s' = cum_height_err raw
      /\ err_mag s' = err_mag raw /\ pos_ref s' = pos_ref raw
      /\ pos_ref_initial_obj s' = pos_ref_initial_obj raw)
  /\ config s'
     = (if match fst (control_law s) with Returned => true | _ => false end
           && gtb (fsub (time_check w) (Num 0.5)) (last_time_print raw)
        then config_json w else config raw).
Proof.
  unfold calc_control_signals.
  destruct (control_law s) as [[|e] s0]; cbn [fst snd].
  - unfold print_at_period, read_config, clip_control_signals.
    cbn -[np_clip pow]. destruct (gtb _ _); cbn -[np_clip pow]; repeat split.
  - split; [reflexivity|]. split; [intros Hr; discriminate|].
    split; [repeat split | reflexivity].
Qed.

(** When the control law raises, [calc_control_signals] ends there:
    nothing is clipped and the configuration is not read again. *)
Lemma ieee_calc_raised (w : World) (s : ControllerThread) :
  fst (control_law s) <> Returned ->
  calc_control_signals w s = control_law s.
Proof.
  unfold calc_control_signals.
  destruct (control_law s) as [[|e] s0]; cbn [fst]; intros H;
    [contradiction | reflexivity].
Qed.

End IEEEControlLaw.

(** ** Output limits *)

Lemma in_range_eq (lo lo' hi hi' : R) (x : float64) :
  lo = lo' -> hi = hi' -> in_range lo hi x -> in_range lo' hi' x.
Proof. intros -> ->. exact (fun H => H). Qed.

Lemma clipped_output (a : float64) (lo lo' hi hi' : R) :
  lo = lo' -> hi = hi' -> lo <= hi ->
  if is_nan a then is_nan (np_clip a (Num lo) (Num hi)) = true
  else in_range lo' hi' (np_clip a (Num lo) (Num hi)).
Proof.
  intros <- <- Hle. apply np_clip_output. exact Hle.
Qed.

Section IEEELimits.

Context {A : Arithmetic}.

(** C2, amended.  [calc_control_signals] returns exactly when the
    configuration has every gain key.  When it returns, each stored
    output is the [np.clip] of its raw command: NaN when the raw command
    is NaN, and otherwise within its limits, roll and pitch in
    [-30, 30], yaw rate in [-200, 200], thrust in [0, 0.8*2^16 - 1].
    When a key is missing it raises [KeyError] and the attributes stay
    as the control law left them, nothing clipped. *)
Theorem outputs_clipped_unless_nan (w : World) (s : ControllerThread) :
  let raw := snd (control_law s) in
  let out := calc_control_signals w s in
  let s' := snd out in
  (fst out = Returned <-> has_gains (config s) = true)
  /\ (fst out = Returned ->
      (if is_nan (roll_r raw) then is_nan (roll_r s') = true
       else in_range (-30) 30 (roll_r s'))
      /\ (if is_nan (pitch_r raw) then is_nan (pitch_r s') = true
          else in_range (-30) 30 (pitch_r s'))
      /\ (if is_nan (yawrate_r raw) then is_nan (yawrate_r s') = true
          else in_range (-200) 200 (yawrate_r s'))
      /\ (if is_nan (thrust_r raw) then is_nan (thrust_r s') = true
          else in_range 0 (0.8 * 2 ^ 16 - 1) (thrust_r s')))
  /\ (fst out <> Returned -> fst out = Raised KeyError /\ s' = raw).
Proof.
  intros raw out s'. subst out s'.
  destruct (ieee_calc_control_signals w s) as (Hfst & Hout & _).
  rewrite Hfst.
  split; [apply ieee_control_law_returns|]. split.
  - intros Hret.
    destruct (Hout Hret) as (Hr & Hp & Hy & Ht).
    fold raw in Hr, Hp, Hy, Ht.
    rewrite Hr, Hp, Hy, Ht.
    split; [apply clipped_output; lra|].
    split; [apply clipped_output; lra|].
    split; [apply clipped_output; lra|].
    apply clipped_output; lra.
  - intros Hraise. split.
    + destruct (ieee_control_law_raises s) as [H|H];
        [contradiction | exact H].
    + rewrite ieee_calc_raised by exact Hraise. reflexivity.
Qed.

End IEEELimits.

(** Arithmetic without rounding hands a NaN on. *)
Lemma exact_mul_nan (x : float64) : exact_mul x NaN = NaN.
Proof. destruct x; reflexivity. Qed.

Lemma exact_add_nan (x : float64) : exact_add x NaN = NaN.
Proof. destruct x; reflexivity. Qed.

Lemma calc_returns_with_flight_config (w : World) (s : ControllerThread) :
  config s = flight_config -> fst (calc_control_signals w s) = Returned.
Proof.
  intros Hc. destruct (ieee_calc_control_signals w s) as (-> & _).
  apply ieee_control_law_returns. rewrite Hc. reflexivity.
Qed.

Lemma outputs_clipped_unless_nan_witness :
  let s := init flight_config in
  let s' := snd (calc_control_signals early s) in
  fst (calc_control_signals early s) = Returned
  /\ (if is_nan (thrust_r (snd (control_law s)))
      then is_nan (thrust_r s') = true
      else in_range 0 (0.8 * 2 ^ 16 - 1) (thrust_r s')).
Proof.
  intros s s'.
  assert (H : fst (calc_control_signals early s) = Returned)
    by (apply calc_returns_with_flight_config; reflexivity).
  split; [exact H|].
  pose proof (outputs_clipped_unless_nan early s) as Hc.
  cbn zeta in Hc. destruct Hc as (_ & Hc & _).
  destruct (Hc H) as (_ & _ & _ & Ht). exact Ht.
Defined.

(** C2 as stated fails: with the x estimate at NaN, and every key in the
    configuration, [calc_control_signals] returns and the stored roll and
    pitch outputs are NaN, not within [-30, 30]. *)
Lemma nan_estimate_passes_clipping :
  let s' := snd (calc_control_signals early lost_x) in
  fst (calc_control_signals early lost_x) = Returned
  /\ roll_r s' = NaN
  /\ pitch_r s' = NaN
  /\ ~ in_range (-30) 30 (roll_r s')
  /\ ~ in_range (-30) 30 (pitch_r s').
Proof.
  intros s'.
  assert (Hret : fst (calc_control_signals early lost_x) = Returned)
    by (apply calc_returns_with_flight_config; reflexivity).
  destruct (ieee_calc_control_signals early lost_x) as (Hfst & Hout & _).
  rewrite Hfst in Hret. destruct (Hout Hret) as (Hr & Hp & _).
  fold s' in Hr, Hp.
  destruct (ieee_control_law_lateral lost_x eq_refl) as [Hpitch Hroll].
  assert (Hraw : pitch_r (snd (control_law lost_x)) = NaN
                 /\ roll_r (snd (control_law lost_x)) = NaN).
  { rewrite Hpitch, Hroll. cbn -[exact_euler exact_mul exact_add].
    destruct (snd (exact_euler _)) as [c| | |];
      cbn -[exact_mul exact_add]; rewrite ?exact_mul_nan; split; reflexivity. }
  destruct Hraw as [Hrawp Hrawr].
  rewrite Hrawr in Hr. rewrite Hrawp in Hp. cbn in Hr, Hp.
  rewrite Hfst. split; [exact Hret|].
  split; [exact Hr|]. split; [exact Hp|].
  rewrite Hr, Hp. unfold in_range. cbn. split; intros [H _]; discriminate.
Qed.

(** ** The height integral *)

Section IEEEIntegral.

Context {A : Arithmetic}.

Lemma ieee_calc_integral (w : World) (s : ControllerThread) :
  cum_height_err (snd (calc_control_signals w s))
  = (if enabled s
     then np_clip (integral_sum s) (Num (-200)) (Num 200)
     else cum_height_err s).
Proof.
  destruct (ieee_calc_control_signals w s) as (_ & _ & (_ & _ & -> & _) & _).
  apply ieee_control_law_frame.
Qed.

(** Sending, and raising in [int], leave the attributes as
    [calc_control_signals] left them. *)
Lemma ieee_run_iteration_frame (w : World) (s : ControllerThread) :
  let s0 := snd (calc_control_signals w s) in
  let s1 := snd (run_iteration w s) in
  cum_height_err s1 = cum_height_err s0
  /\ enabled s1 = enabled s0
  /\ err_mag s1 = err_mag s0
  /\ config s1 = config s0
  /\ pos_ref s1 = pos_ref s0
  /\ pos_ref_initial_obj s1 = pos_ref_initial_obj s0.
Proof.
  cbn zeta. unfold run_iteration, send_outputs.
  destruct (calc_control_signals w s) as [[|e] c]; cbn [fst snd].
  - destruct (enabled c) eqn:He; cbn [fst snd];
      [|repeat split; exact He].
    destruct (py_int (thrust_r c)); cbn [fst snd];
      unfold send_setpoint, set_sent; cbn; repeat split;
      exact He.
  - repeat split.
Qed.

Lemma ieee_handle_key_integral (ch : ascii) (s : ControllerThread) :
  if Ascii.eqb ch "e"
  then fst (handle_key ch s) = enable s
  else cum_height_err (fst (handle_key ch s)) = cum_height_err s.
Proof.
  unfold handle_key.
  destruct (Ascii.eqb_spec ch "e") as [->|Hne]; [reflexivity|].
  repeat match goal with
         | |- context [Ascii.eqb ch ?c] => destruct (Ascii.eqb ch c)
         end; reflexivity.
Qed.

Lemma ieee_coordinates_step_integral (key : option ascii)
  (s : ControllerThread) (pl : Place) :
  let c := snd (fst (coordinates_step key s pl)) in
  cum_height_err c = cum_height_err s \/ cum_height_err c = Num 0.
Proof.
  destruct pl as [|len n|len n|len n| |]; cbn -[Nat.ltb].
  - unfold enter_loop.
    destruct key as [ch|]; [destruct (Ascii.eqb ch "e")|]; cbn;
      destruct (cfg_coordinates (config s)); cbn; auto.
  - destruct (n <? len)%nat; [|cbn; auto].
    destruct (cfg_coordinates (config s)) as [co|]; [|cbn; auto].
    destruct (nth_error (co_x co) n); [|cbn; auto].
    destruct (nth_error (co_y co) n); [|cbn; auto].
    destruct (nth_error (co_z co) n); [|cbn; auto].
    destruct (nth_error (co_yaw co) n); [|cbn; auto].
    unfold rebind_pos_ref. destruct (pos_ref_initial_obj s); cbn; auto.
  - destruct (cfg_waypoint_margin (config s)); [|cbn; auto].
    destruct (gtb _ _); cbn; auto.
  - cbn; auto.
  - cbn; auto.
  - cbn; auto.
Qed.

(** Every event leaves the integral as it is, sets it to zero ([enable])
    or, on an armed tick, makes it the clipped sum. *)
Lemma ieee_send_outputs_frame (s : ControllerThread) :
  let s1 := snd (send_outputs s) in
  cum_height_err s1 = cum_height_err s
  /\ enabled s1 = enabled s
  /\ err_mag s1 = err_mag s
  /\ config s1 = config s
  /\ pos_ref s1 = pos_ref s
  /\ pos_ref_initial_obj s1 = pos_ref_initial_obj s.
Proof.
  cbn zeta. unfold send_outputs.
  destruct (enabled s) eqn:He; cbn [fst snd]; [|repeat split; exact He].
  destruct (py_int (thrust_r s)); cbn [fst snd];
    unfold send_setpoint, set_sent; cbn; repeat split; exact He.
Qed.

(** Every event leaves the integral as it is, sets it to zero ([enable])
    or, when it runs the control law with the motors armed, makes it the
    clipped sum. *)
Lemma ieee_step_integral (ev : Event) (p : Program) :
  let c := cum_height_err (control p) in
  let c' := cum_height_err (control (step ev p)) in
  c' = c \/ c' = Num 0
  \/ runs_control_law ev /\ enabled (control p) = true
     /\ c' = np_clip (integral_sum (control p)) (Num (-200)) (Num 200).
Proof.
  destruct p as [s pl]. destruct ev; cbn [step control place].
  - destruct (ieee_run_iteration_frame w s) as (-> & _).
    rewrite ieee_calc_integral. destruct (enabled s) eqn:He; [|auto].
    right. right. split; [exists w; auto|]. auto.
  - rewrite ieee_calc_integral. destruct (enabled s) eqn:He; [|auto].
    right. right. split; [exists w; auto|]. auto.
  - left. apply ieee_send_outputs_frame.
  - left. unfold run_setup, make_position_sanity_check.
    destruct (_ || _); reflexivity.
  - left. reflexivity.
  - left. reflexivity.
  - left. reflexivity.
  - left. reflexivity.
  - pose proof (ieee_handle_key_integral ch s) as H.
    destruct (Ascii.eqb ch "e"); [rewrite H; right; left; reflexivity|].
    left. exact H.
  - pose proof (ieee_coordinates_step_integral key s pl) as H.
    destruct (coordinates_step key s pl) as [[o c] pl'].
    cbn [fst snd control] in *. destruct H as [H|H]; auto.
Qed.

Lemma zero_in_integral_range : in_range (-200) 200 (Num 0).
Proof. unfold in_range. cbn. rewrite !Rltb_ge by lra. split; reflexivity. Qed.

Lemma ieee_run_integral (evs : list Event) (p : Program) :
  is_nan (cum_height_err (control p)) = true
  \/ in_range (-200) 200 (cum_height_err (control p)) ->
  is_nan (cum_height_err (control (run_events evs p))) = true
  \/ in_range (-200) 200 (cum_height_err (control (run_events evs p))).
Proof.
  revert p. induction evs as [|ev evs IH]; intros p Hp; cbn [run_events].
  - exact Hp.
  - apply IH.
    destruct (ieee_step_integral ev p) as [-> | [-> | (_ & _ & ->)]].
    + exact Hp.
    + right. apply zero_in_integral_range.
    + pose proof (np_clip_output (integral_sum (control p)) (-200) 200) as H.
      destruct (is_nan (integral_sum (control p))); [left|right]; apply H; lra.
Qed.

(** C3, amended.  [cum_height_err] starts at zero.  A tick with the
    motors armed makes it [np.clip(cum_height_err + e_z, -200, 200)]: NaN
    when that sum is NaN, -200 when the sum is not above -200, 200 when it
    is not below 200, and the sum itself in between.  A tick with the
    motors off leaves it unchanged.  So an integral within [-200, 200]
    stays there through every event, of any thread and in any order,
    except an armed run of the control law whose sum is NaN, and in
    every run the integral is within [-200, 200] or NaN. *)
Theorem integral_clipped_unless_nan (file : Config) (w : World)
  (s : ControllerThread) (ev : Event) (p : Program) (evs : list Event) :
  let sum := integral_sum s in
  let c' := cum_height_err (snd (calc_control_signals w s)) in
  cum_height_err (init file) = Num 0
  /\ (enabled s = true ->
      (is_nan sum = true -> is_nan c' = true)
      /\ (is_nan sum = false -> gtb sum (Num (-200)) = false ->
          c' = Num (-200))
      /\ (gtb sum (Num (-200)) = true -> ltb sum (Num 200) = true -> c' = sum)
      /\ (is_nan sum = false -> ltb sum (Num 200) = false -> c' = Num 200)
      /\ (is_nan sum = false -> in_range (-200) 200 c'))
  /\ (enabled s = false -> c' = cum_height_err s)
  /\ (integral_within_limits (control p) ->
      integral_within_limits (control (step ev p))
      \/ runs_control_law ev /\ enabled (control p) = true
         /\ is_nan (integral_sum (control p)) = true)
  /\ (let c := cum_height_err (control (run_events evs (start file))) in
      is_nan c = true \/ in_range (-200) 200 c).
Proof.
  intros sum c'. subst c'. rewrite ieee_calc_integral. fold sum.
  split; [reflexivity|]. split; [|split; [|split]].
  - intros ->.
    assert (Hle : -200 <= 200) by lra.
    split; [intros Hn; rewrite np_clip_nan by exact Hn; exact Hn|].
    split; [intros Hn; apply (np_clip_cases sum (-200) 200 Hle Hn)|].
    split.
    { intros Hgt. destruct (gtb_not_nan _ _ Hgt) as [Hn _].
      apply (np_clip_cases sum (-200) 200 Hle Hn). exact Hgt. }
    split; [intros Hn; apply (np_clip_cases sum (-200) 200 Hle Hn)|].
    intros Hn. apply np_clip_in_range; assumption.
  - intros ->. reflexivity.
  - unfold integral_within_limits. intros Hp.
    destruct (ieee_step_integral ev p) as [-> | [-> | (Hev & Hen & ->)]].
    + left. exact Hp.
    + left. apply zero_in_integral_range.
    + destruct (is_nan (integral_sum (control p))) eqn:Hn.
      * right. auto.
      * left. apply np_clip_in_range; [lra | exact Hn].
  - apply ieee_run_integral. right. apply zero_in_integral_range.
Qed.

End IEEEIntegral.

Lemma integral_clipped_unless_nan_witness :
  let sum := integral_sum saturated in
  enabled saturated = true
  /\ is_nan sum = false
  /\ ltb sum (Num 200) = false
  /\ cum_height_err (snd (calc_control_signals early saturated)) = Num 200.
Proof.
  intros sum.
  assert (He : enabled saturated = true) by reflexivity.
  assert (Hs : sum = Num (200 + (1.0 + - 0.0))) by reflexivity.
  assert (Hn : is_nan sum = false) by (rewrite Hs; reflexivity).
  assert (Hl : ltb sum (Num 200) = false)
    by (rewrite Hs; cbn; apply Rltb_ge; lra).
  split; [exact He|]. split; [exact Hn|]. split; [exact Hl|].
  pose proof (integral_clipped_unless_nan flight_config early saturated
                (Tick early) (start flight_config) []) as H.
  cbn zeta in H. destruct H as (_ & H & _).
  destruct (H He) as (_ & _ & _ & H200 & _).
  exact (H200 Hn Hl).
Defined.

(** C3 as stated fails: the key e arms the controller, the z estimate
    comes in as NaN, and after the next tick the integral is NaN, not
    within [-200, 200]. *)
Lemma nan_height_breaks_integral_bound :
  let p := run_events [Key "e"; Position (Num 0) (Num 0) NaN; Tick early]
             (start flight_config) in
  enabled (control p) = true
  /\ cum_height_err (control p) = NaN
  /\ ~ in_range (-200) 200 (cum_height_err (control p)).
Proof.
  intros p.
  assert (Hp : control p = snd (run_iteration early lost_z)) by reflexivity.
  destruct (ieee_run_iteration_frame early lost_z) as (Hc & He & _).
  destruct (ieee_calc_control_signals early lost_z)
    as (_ & _ & (He' & _) & _).
  destruct (ieee_control_law_frame lost_z) as ((He'' & _) & _).
  assert (Hcum : cum_height_err (control p) = NaN).
  { rewrite Hp, Hc, ieee_calc_integral. reflexivity. }
  split; [rewrite Hp, He, He', He''; reflexivity|].
  split; [exact Hcum|].
  rewrite Hcum. intros [H _]. discriminate.
Qed.

(** ** The position sanity check *)

Lemma np_abs_not_ninf (x : float64) : np_abs x <> NInf.
Proof. destruct x; discriminate. Qed.

Lemma np_abs_nan (x : float64) : is_nan (np_abs x) = is_nan x.
Proof. destruct x; reflexivity. Qed.

(** [np.max] of two values that are not NaN exceeds a bound exactly when
    one of them does. *)
Lemma np_max2_gtb (a b : float64) (t : R) :
  is_nan a = false -> is_nan b = false ->
  gtb (np_max2 a b) (Num t) = gtb a (Num t) || gtb b (Num t).
Proof.
  intros Ha Hb. unfold np_max2. rewrite Ha, Hb.
  destruct a as [a| | |], b as [b| | |]; try discriminate; cbn;
    try reflexivity;
    repeat match goal with
           | |- context [Rltb ?u ?v] => destruct (Rltb_spec u v); cbn
           end;
    try reflexivity; lra.
Qed.

(** A NaN among the two makes the test [np.max(...) > t] false. *)
Lemma np_max2_gtb_nan (a b c : float64) :
  is_nan a = true \/ is_nan b = true -> gtb (np_max2 a b) c = false.
Proof.
  unfold np_max2. intros [H|H].
  - rewrite H. destruct a; try discriminate. destruct c; reflexivity.
  - destruct (is_nan a) eqn:Ha.
    + destruct a; try discriminate. destruct c; reflexivity.
    + rewrite H. destruct b; try discriminate. destruct c; reflexivity.
Qed.


Section IEEESanityCheck.

Context {A : Arithmetic}.

Lemma ieee_sanity_check_outcome (s : ControllerThread) :
  make_position_sanity_check s
  = (if out_of_bounds (pos s)
     then Raised
            (RuntimeError "Position estimate out of bounds" (pos s))
     else Returned, s).
Proof.
  unfold make_position_sanity_check, out_of_bounds.
  destruct (_ || _); reflexivity.
Qed.

Lemma out_of_bounds_iff (p : vec3) :
  out_of_bounds p = true <->
  (is_nan (v0 p) = false /\ is_nan (v1 p) = false
   /\ (gtb (np_abs (v0 p)) (Num 20) = true
       \/ gtb (np_abs (v1 p)) (Num 20) = true))
  \/ ltb (v2 p) (Num 0) = true
  \/ gtb (v2 p) (Num 5) = true.
Proof.
  unfold out_of_bounds.
  destruct (is_nan (v0 p)) eqn:Hx; [|destruct (is_nan (v1 p)) eqn:Hy].
  - rewrite np_max2_gtb_nan by (left; rewrite np_abs_nan; exact Hx).
    cbn [orb]. rewrite orb_true_iff. split.
    + intros [H|H]; auto.
    + intros [(H & _)|[H|H]]; [discriminate|auto|auto].
  - rewrite np_max2_gtb_nan by (right; rewrite np_abs_nan; exact Hy).
    cbn [orb]. rewrite orb_true_iff. split.
    + intros [H|H]; auto.
    + intros [(_ & H & _)|[H|H]]; [discriminate|auto|auto].
  - rewrite np_max2_gtb by (rewrite np_abs_nan; assumption).
    rewrite !orb_true_iff. split.
    + intros [[H|H]|H]; auto.
    + intros [(_ & _ & [H|H])|[H|H]]; auto.
Qed.


(** The start-up part of [run] either raises without assigning, or seeds
    the reference with the estimate and a height of one metre. *)
Lemma ieee_run_setup_cases (s : ControllerThread) :
  run_setup s
  = (if out_of_bounds (pos s)
     then (Raised
             (RuntimeError "Position estimate out of bounds" (pos s)), s)
     else (Returned,
           set_pos_ref_initial_obj SameObject
             (set_yaw_ref (Num 0.0)
                (set_pos_ref (V3 (v0 (pos s)) (v1 (pos s)) (Num 1.0)) s)))).
Proof.
  unfold run_setup. rewrite ieee_sanity_check_outcome.
  destruct (out_of_bounds (pos s)); reflexivity.
Qed.

(** X8.  The start-up part of [run] raises exactly when the sanity
    check's test is true, and then assigns nothing.  Otherwise - as soon
    as x or y is NaN and z is not outside [0, 5], for one - it sets the
    reference to (x, y, 1.0) with zero yaw, makes it the object the key
    handler moves, and neither arms nor sends anything; a NaN estimate is
    taken into the reference as it is. *)
Theorem run_setup_seeds_reference_or_raises (s : ControllerThread) :
  let out := run_setup s in
  let s' := snd out in
  (out_of_bounds (pos s) = true ->
   fst out
   = Raised (RuntimeError "Position estimate out of bounds" (pos s))
   /\ s' = s)
  /\ (out_of_bounds (pos s) = false ->
      fst out = Returned
      /\ pos_ref s' = V3 (v0 (pos s)) (v1 (pos s)) (Num 1.0)
      /\ yaw_ref s' = Num 0.0
      /\ pos_ref_initial_obj s' = SameObject
      /\ pos s' = pos s
      /\ enabled s' = enabled s
      /\ sent s' = sent s
      /\ cum_height_err s' = cum_height_err s)
  /\ ((is_nan (v0 (pos s)) = true \/ is_nan (v1 (pos s)) = true) ->
      ltb (v2 (pos s)) (Num 0) = false -> gtb (v2 (pos s)) (Num 5) = false ->
      fst out = Returned /\ v0 (pos_ref s') = v0 (pos s)
      /\ v1 (pos_ref s') = v1 (pos s)).
Proof.
  intros out s'. subst s' out. rewrite ieee_run_setup_cases.
  split; [|split].
  - intros ->. split; reflexivity.
  - intros ->. cbn. repeat split.
  - intros Hnan Hlo Hhi.
    assert (Hb : out_of_bounds (pos s) = false).
    { destruct (out_of_bounds (pos s)) eqn:Hb; [|reflexivity].
      apply out_of_bounds_iff in Hb.
      destruct Hb as [(Hx & Hy & _)|[H|H]]; [|congruence|congruence].
      destruct Hnan; congruence. }
    rewrite Hb. cbn. repeat split.
Qed.

End IEEESanityCheck.



Lemma run_setup_seeds_reference_or_raises_witness :
  out_of_bounds (pos lost_x_far_y) = false
  /\ fst (run_setup lost_x_far_y) = Returned
  /\ pos_ref (snd (run_setup lost_x_far_y)) = V3 NaN (Num 25) (Num 1.0).
Proof.
  assert (Hb : out_of_bounds (pos lost_x_far_y) = false).
  { unfold out_of_bounds.
    rewrite np_max2_gtb_nan by (left; reflexivity).
    cbn. rewrite !Rltb_ge by lra. reflexivity. }
  split; [exact Hb|].
  pose proof (run_setup_seeds_reference_or_raises lost_x_far_y) as H.
  cbn zeta in H. destruct H as (_ & H & _).
  destruct (H Hb) as (Hr & Hp & _).
  split; [exact Hr|]. rewrite Hp. reflexivity.
Defined.

(** ** The waypoint follower *)

Section IEEEFollower.

Context {A : Arithmetic}.

Lemma ieee_step_follow (key : option ascii) (p : Program) :
  step (Follow key) p
  = mkProgram (snd (fst (coordinates_step key (control p) (place p))))
      (snd (coordinates_step key (control p) (place p))).
Proof.
  cbn [step]. destruct (coordinates_step key (control p) (place p))
    as [[o c] pl]. reflexivity.
Qed.

(** Only a follower step moves the follower. *)
Lemma ieee_step_place (ev : Event) (p : Program) :
  (forall key, ev <> Follow key) -> place (step ev p) = place p.
Proof.
  intros H. destruct ev; try reflexivity. exfalso. exact (H key eq_refl).
Qed.

(** The wait of a waypoint: where the follower goes from there. *)
Lemma ieee_wait_step (key : option ascii) (s : ControllerThread)
  (len n : nat) :
  coordinates_step key s (WaitMargin len n)
  = match cfg_waypoint_margin (config s) with
    | None => (Raised KeyError, s, Aborted)
    | Some margin =>
        (Returned, s,
         if still_waiting s margin then WaitMargin len n else Settle len n)
    end.
Proof.
  cbn [coordinates_step]. unfold still_waiting.
  destruct (cfg_waypoint_margin (config s)); [|reflexivity].
  destruct (gtb _ _); reflexivity.
Qed.

(** The settle delay of waypoint [n] is entered only from the wait of
    waypoint [n], with a margin in the configuration and the test
    [err_mag > margin] false. *)
Lemma ieee_step_into_settle (ev : Event) (p : Program) (len n : nat) :
  place (step ev p) = Settle len n -> place p <> Settle len n ->
  (exists key, ev = Follow key)
  /\ place p = WaitMargin len n
  /\ exists margin,
       cfg_waypoint_margin (config (control p)) = Some margin
       /\ still_waiting (control p) margin = false.
Proof.
  intros Hafter Hbefore.
  destruct ev;
    try (exfalso; apply Hbefore; rewrite <- Hafter; reflexivity).
  split; [exists key; reflexivity|].
  rewrite ieee_step_follow in Hafter. cbn [place] in Hafter.
  destruct p as [s pl]. cbn [control place] in *.
  destruct pl as [|len' n'|len' n'|len' n'| |].
  - cbn in Hafter. unfold enter_loop in Hafter.
    destruct key as [ch|]; [destruct (Ascii.eqb ch "e")|];
      cbn in Hafter; try discriminate;
      destruct (cfg_coordinates (config s)); discriminate.
  - cbn -[Nat.ltb] in Hafter.
    destruct (n' <? len')%nat; [|discriminate].
    destruct (cfg_coordinates (config s)) as [co|]; [|discriminate].
    destruct (nth_error (co_x co) n'); [|discriminate].
    destruct (nth_error (co_y co) n'); [|discriminate].
    destruct (nth_error (co_z co) n'); [|discriminate].
    destruct (nth_error (co_yaw co) n'); discriminate.
  - rewrite ieee_wait_step in Hafter.
    destruct (cfg_waypoint_margin (config s)) as [margin|];
      [|discriminate].
    cbn [snd] in Hafter.
    destruct (still_waiting s margin) eqn:Hw; [discriminate|].
    injection Hafter as <- <-.
    split; [reflexivity|]. exists margin. auto.
  - discriminate.
  - discriminate.
  - discriminate.
Qed.

Lemma ieee_place_eq_dec (a b : Place) : {a = b} + {a <> b}.
Proof. decide equality; apply Nat.eq_dec. Qed.

(** In a run that ends in the settle delay of waypoint [n], some
    follower step left the wait of waypoint [n] on a false test. *)
Lemma ieee_run_into_settle (evs : list Event) (p : Program) (len n : nat) :
  place (run_events evs p) = Settle len n -> place p <> Settle len n ->
  exists evs1 key evs2 margin,
    evs = evs1 ++ Follow key :: evs2
    /\ place (run_events evs1 p) = WaitMargin len n
    /\ cfg_waypoint_margin (config (control (run_events evs1 p)))
       = Some margin
    /\ still_waiting (control (run_events evs1 p)) margin = false.
Proof.
  revert p. induction evs as [|ev evs IH]; intros p Hend Hs; cbn in Hend.
  - contradiction.
  - destruct (ieee_place_eq_dec (place (step ev p)) (Settle len n))
      as [Hin|Hout].
    + destruct (ieee_step_into_settle ev p len n Hin Hs)
        as ((key & ->) & Hpl & margin & Hm & Hw).
      exists [], key, evs, margin. cbn. auto.
    + destruct (IH (step ev p) Hend Hout)
        as (evs1 & key & evs2 & margin & -> & Hpl & Hm & Hw).
      exists (ev :: evs1), key, evs2, margin. cbn. auto.
Qed.

(** C6, amended.  The follower leaves the wait of waypoint [n] only from
    that wait and only when the test [err_mag > margin] is false: the
    error magnitude is at most the margin, equality included, or one of
    the two is NaN.  It stays in the wait while the test is true.  The
    armed flag plays no part: on a false test the follower goes on,
    armed or not, and changes no attribute.  It comes to the next
    waypoint only from the settle delay after that wait, and when the
    waypoints are used up it calls [disable()], which switches the
    motors off. *)
Theorem waypoint_gate_unless_nan (ev : Event) (key : option ascii)
  (p : Program) (len n : nat) (margin : float64) :
  (place (step ev p) = Settle len n -> place p <> Settle len n ->
   place p = WaitMargin len n
   /\ exists m, cfg_waypoint_margin (config (control p)) = Some m
        /\ (leb (err_mag (control p)) m = true
            \/ is_nan (err_mag (control p)) = true \/ is_nan m = true))
  /\ (forall evs file,
      place (run_events evs (start file)) = Settle len n ->
      exists evs1 k evs2 m,
        evs = evs1 ++ Follow k :: evs2
        /\ place (run_events evs1 (start file)) = WaitMargin len n
        /\ cfg_waypoint_margin
             (config (control (run_events evs1 (start file)))) = Some m
        /\ (leb (err_mag (control (run_events evs1 (start file)))) m = true
            \/ is_nan (err_mag (control (run_events evs1 (start file))))
               = true
            \/ is_nan m = true))
  /\ (place (step ev p) = LoopHead len (S n) ->
      place p <> LoopHead len (S n) -> place p = Settle len n)
  /\ (place p = WaitMargin len n ->
      cfg_waypoint_margin (config (control p)) = Some margin ->
      (gtb (err_mag (control p)) margin = true ->
       step (Follow key) p = p)
      /\ (leb (err_mag (control p)) margin = true
          \/ is_nan (err_mag (control p)) = true \/ is_nan margin = true ->
          step (Follow key) p = mkProgram (control p) (Settle len n)))
  /\ (place p = LoopHead len n -> (len <= n)%nat ->
      step (Follow key) p = mkProgram (disable true (control p)) Finished
      /\ enabled (control (step (Follow key) p)) = false).
Proof.
  split.
  { intros Hafter Hbefore.
    destruct (ieee_step_into_settle ev p len n Hafter Hbefore)
      as (_ & Hpl & m & Hm & Hw).
    split; [exact Hpl|]. exists m. split; [exact Hm|].
    apply gtb_false_iff. exact Hw. }
  split.
  { intros evs file Hend.
    destruct (ieee_run_into_settle evs (start file) len n Hend)
      as (evs1 & k & evs2 & m & Hevs & Hpl & Hm & Hw); [discriminate|].
    exists evs1, k, evs2, m. repeat split; try assumption.
    apply gtb_false_iff. exact Hw. }
  destruct p as [s pl]. cbn [control place] in *.
  split; [|split].
  - intros Hafter Hbefore.
    destruct ev;
      try (exfalso; apply Hbefore; rewrite <- Hafter; reflexivity).
    rewrite ieee_step_follow in Hafter. cbn [place control] in Hafter.
    destruct pl as [|len' n'|len' n'|len' n'| |].
    + cbn in Hafter. unfold enter_loop in Hafter.
      destruct key0 as [ch|]; [destruct (Ascii.eqb ch "e")|];
        cbn in Hafter; try discriminate;
        destruct (cfg_coordinates (config _)); cbn in Hafter;
        try discriminate; injection Hafter as <- Hn; discriminate.
    + cbn -[Nat.ltb] in Hafter.
      destruct (n' <? len')%nat; [|discriminate].
      destruct (cfg_coordinates (config s)) as [co|]; [|discriminate].
      destruct (nth_error (co_x co) n'); [|discriminate].
      destruct (nth_error (co_y co) n'); [|discriminate].
      destruct (nth_error (co_z co) n'); [|discriminate].
      destruct (nth_error (co_yaw co) n'); discriminate.
    + rewrite ieee_wait_step in Hafter.
      destruct (cfg_waypoint_margin (config s)) as [m|]; [|discriminate].
      cbn [snd] in Hafter. destruct (still_waiting s m); discriminate.
    + cbn in Hafter. injection Hafter as <- <-. reflexivity.
    + discriminate.
    + discriminate.
  - intros -> Hm. rewrite ieee_step_follow. cbn [control place].
    rewrite ieee_wait_step, Hm. cbn [fst snd]. unfold still_waiting.
    split.
    + intros ->. reflexivity.
    + intros Hle. apply gtb_false_iff in Hle. rewrite Hle. reflexivity.
  - intros -> Hlen. cbn -[Nat.ltb].
    assert (Hlt : (n <? len)%nat = false) by (apply Nat.ltb_ge; exact Hlen).
    rewrite Hlt. split; reflexivity.
Qed.

End IEEEFollower.

Lemma sqrt_quarter : sqrt 0.25 = 0.5.
Proof.
  replace 0.25 with (0.5 * 0.5) by lra. apply sqrt_square. lra.
Qed.

(** [disarmed_flight] before its tick: start-up has passed and the
    follower has set the first waypoint. *)
Lemma ieee_disarmed_flight_before :
  let p :=
    run_events
      [Position (Num 0) (Num 0) (Num 0.5); Setup; Follow None; Follow None]
      (start flight_config) in
  place p = WaitMargin 2 0
  /\ enabled (control p) = false
  /\ config (control p) = flight_config
  /\ pos_ref_initial_obj (control p)
     = OtherObject (V3 (Num 0) (Num 0) (Num 1.0))
  /\ pos (control p) = V3 (Num 0) (Num 0) (Num 0.5)
  /\ pos_ref (control p) = V3 (Num (0 + 0)) (Num (0 + 0)) (Num 1).
Proof.
  cbn zeta. cbn [run_events].
  set (p1 := step Setup (step (Position (Num 0) (Num 0) (Num 0.5))
                           (start flight_config))).
  assert (Hp1 : p1 = mkProgram
                       (set_pos_ref_initial_obj SameObject
                          (set_yaw_ref (Num 0.0)
                             (set_pos_ref (V3 (Num 0) (Num 0) (Num 1.0))
                                (_log_data_pos (Num 0) (Num 0) (Num 0.5)
                                   (init flight_config)))))
                       AwaitKey).
  { unfold p1. cbn [step control place start].
    rewrite ieee_run_setup_cases.
    assert (Hb : out_of_bounds
                   (pos (_log_data_pos (Num 0) (Num 0) (Num 0.5)
                           (init flight_config))) = false).
    { unfold out_of_bounds. cbn.
      rewrite Rabs_R0. rewrite !Rltb_ge by lra. reflexivity. }
    rewrite Hb. reflexivity. }
  rewrite Hp1. rewrite !ieee_step_follow. cbn. repeat split.
Qed.

(** What [disarmed_flight] has come to. *)
Lemma ieee_disarmed_flight_facts :
  place disarmed_flight = WaitMargin 2 0
  /\ enabled (control disarmed_flight) = false
  /\ err_mag (control disarmed_flight) = Num 0.5
  /\ config (control disarmed_flight) = flight_config
  /\ pos_ref_initial_obj (control disarmed_flight)
     = OtherObject (V3 (Num 0) (Num 0) (Num 1.0)).
Proof.
  pose (before :=
          run_events
            [Position (Num 0) (Num 0) (Num 0.5); Setup;
             Follow None; Follow None] (start flight_config)).
  assert (Hd : disarmed_flight
               = mkProgram (snd (run_iteration early (control before)))
                   (place before)) by reflexivity.
  destruct ieee_disarmed_flight_before
    as (Hpl & Hen & Hcfg & Hobj & Hpos & Href).
  fold before in Hpl, Hen, Hcfg, Hobj, Hpos, Href.
  rewrite Hd. cbn [control place].
  generalize dependent (control before). intros c Hd Hen Hcfg Hobj Hpos Href.
  destruct (ieee_run_iteration_frame early c)
    as (_ & He1 & Hm1 & Hc1 & _ & Ho1).
  destruct (ieee_calc_control_signals early c)
    as (_ & _ & (He2 & _ & _ & Hm2 & _ & Ho2) & Hc2).
  destruct (ieee_control_law_frame c)
    as ((He3 & _ & Hc3 & _) & (_ & _ & Ho3 & _) & Hm3 & _).
  split; [exact Hpl|].
  split; [rewrite He1, He2, He3; exact Hen|].
  split.
  { rewrite Hm1, Hm2, Hm3, Hpos, Href. cbn.
    rewrite Rltb_ge.
    - f_equal. etransitivity; [|exact sqrt_quarter]. f_equal. lra.
    - lra. }
  split.
  { rewrite Hc1, Hc2, Hc3, Hcfg. destruct (_ && _); reflexivity. }
  rewrite Ho1, Ho2, Ho3. exact Hobj.
Qed.

Lemma waypoint_gate_unless_nan_witness :
  place disarmed_flight = WaitMargin 2 0
  /\ cfg_waypoint_margin (config (control disarmed_flight))
     = Some (Num 0.5)
  /\ leb (err_mag (control disarmed_flight)) (Num 0.5) = true
  /\ step (Follow None) disarmed_flight
     = mkProgram (control disarmed_flight) (Settle 2 0).
Proof.
  destruct ieee_disarmed_flight_facts as (Hpl & _ & Herr & Hcfg & _).
  assert (Hm : cfg_waypoint_margin (config (control disarmed_flight))
               = Some (Num 0.5)) by (rewrite Hcfg; reflexivity).
  assert (Hle : leb (err_mag (control disarmed_flight)) (Num 0.5) = true)
    by (rewrite Herr; cbn; rewrite Rltb_ge by lra; reflexivity).
  split; [exact Hpl|]. split; [exact Hm|]. split; [exact Hle|].
  destruct (waypoint_gate_unless_nan (Follow None) None disarmed_flight 2 0
              (Num 0.5)) as (_ & _ & _ & H & _).
  destruct (H Hpl Hm) as (_ & Hgo).
  apply Hgo. left. exact Hle.
Defined.

(** C6 as stated fails: on [disarmed_flight] the motors are off and the
    error magnitude, 0.5, is the margin and not strictly below it, yet
    the follower leaves the wait of the first waypoint and, two steps
    later, sets the second waypoint, one metre further along x. *)
Lemma follower_leaves_wait_disarmed_at_margin :
  let later :=
    run_events [Follow None; Follow None; Follow None] disarmed_flight in
  place disarmed_flight = WaitMargin 2 0
  /\ enabled (control disarmed_flight) = false
  /\ err_mag (control disarmed_flight) = Num 0.5
  /\ cfg_waypoint_margin (config (control disarmed_flight))
     = Some (Num 0.5)
  /\ ltb (err_mag (control disarmed_flight)) (Num 0.5) = false
  /\ place (step (Follow None) disarmed_flight) = Settle 2 0
  /\ place later = WaitMargin 2 1
  /\ pos_ref (control later) = V3 (Num (1 + 0)) (Num (0 + 0)) (Num 1)
  /\ enabled (control later) = false.
Proof.
  intros later.
  destruct ieee_disarmed_flight_facts as (Hpl & Hen & Herr & Hcfg & Hobj).
  assert (Hstep : step (Follow None) disarmed_flight
                  = mkProgram (control disarmed_flight) (Settle 2 0)).
  { rewrite ieee_step_follow, Hpl, ieee_wait_step, Hcfg.
    cbn [cfg_waypoint_margin flight_config fst snd]. unfold still_waiting.
    rewrite Herr. cbn. rewrite Rltb_ge by lra. reflexivity. }
  split; [exact Hpl|]. split; [exact Hen|]. split; [exact Herr|].
  split; [rewrite Hcfg; reflexivity|].
  split; [rewrite Herr; cbn; apply Rltb_ge; lra|].
  split; [rewrite Hstep; reflexivity|].
  unfold later. cbn [run_events]. rewrite Hstep.
  generalize dependent (control disarmed_flight).
  intros c Hen Herr Hcfg Hobj _.
  rewrite !ieee_step_follow. cbn [control place coordinates_step fst snd].
  rewrite Hcfg.
  cbn [cfg_coordinates flight_config co_x co_y co_z co_yaw co_relative
       nth_error Nat.ltb Nat.leb List.length fst snd].
  unfold pos_ref_initial, rebind_pos_ref. rewrite Hobj.
  cbn. split; [reflexivity|]. split; [reflexivity | exact Hen].
Qed.

(** ** One iteration of the control loop *)

(** [int] of a value within [0, hi] returns, with a whole number in the
    same range. *)
Lemma py_int_in_range (x : float64) (hi : R) :
  in_range 0 hi x ->
  exists z, py_int x = inl z /\ (0 <= z)%Z /\ IZR z <= hi.
Proof.
  unfold in_range.
  destruct x as [r| | |]; cbn; intros [Hlo Hhi]; try discriminate.
  destruct (Rltb_spec r 0) as [H0|H0]; [discriminate|].
  destruct (Rltb_spec hi r) as [H1|H1]; [discriminate|].
  destruct (Rle_dec 0 r) as [_|Hn]; [|exfalso; lra].
  exists (Int_part r). destruct (base_Int_part r) as [Hle Hgt].
  split; [reflexivity|]. split; [|lra].
  assert (H : (-1 < Int_part r)%Z) by (apply lt_IZR; cbn; lra).
  lia.
Qed.

Lemma py_int_nan (x : float64) :
  is_nan x = true -> py_int x = inr ValueError.
Proof. destruct x; cbn; intros H; try discriminate. reflexivity. Qed.

Section IEEEIteration.

Context {A : Arithmetic}.

Lemma ieee_calc_sent (w : World) (s : ControllerThread) :
  sent (snd (calc_control_signals w s)) = sent s
  /\ enabled (snd (calc_control_signals w s)) = enabled s.
Proof.
  destruct (ieee_calc_control_signals w s) as (_ & _ & (-> & -> & _) & _).
  destruct (ieee_control_law_frame s) as ((-> & -> & _) & _).
  split; reflexivity.
Qed.

(** X2.  The second half of an iteration, on the attributes as they are
    at that moment: with the motors off it sends nothing; with the
    motors on it sends exactly one setpoint, made of the stored roll,
    pitch and yaw-rate outputs and [int(thrust_r)], unless [thrust_r] is
    NaN or infinite: then [int] raises, nothing is sent and the motors
    stay armed.  In an iteration that nothing interrupts: a missing
    gain key raises [KeyError] before anything is sent; otherwise
    [thrust_r] is the clipped raw thrust, so the iteration raises
    [ValueError] when the raw thrust is NaN, and when it is not, the
    thrust sent is a whole number from 0 to 52427. *)
Theorem iteration_sends_or_raises (w : World) (s : ControllerThread) :
  let raw := snd (control_law s) in
  let s0 := snd (calc_control_signals w s) in
  let out := run_iteration w s in
  (enabled s = false -> send_outputs s = (Returned, s))
  /\ (enabled s = true ->
      match py_int (thrust_r s) with
      | inl thrust =>
          fst (send_outputs s) = Returned
          /\ sent (snd (send_outputs s))
             = sent s ++ [mkSetpoint (roll_r s) (pitch_r s) (yawrate_r s)
                            thrust]
      | inr e => send_outputs s = (Raised e, s)
      end)
  /\ (enabled s = true ->
      (is_nan (thrust_r s) = true ->
       send_outputs s = (Raised ValueError, s))
      /\ (thrust_r s = PInf \/ thrust_r s = NInf ->
          send_outputs s = (Raised OverflowError, s)))
  /\ (fst (calc_control_signals w s) <> Returned ->
      out = (Raised KeyError, raw) /\ sent raw = sent s)
  /\ (fst (calc_control_signals w s) = Returned ->
      out = send_outputs s0
      /\ sent s0 = sent s /\ enabled s0 = enabled s
      /\ (enabled s = true -> is_nan (thrust_r raw) = true ->
          out = (Raised ValueError, s0))
      /\ (enabled s = true -> is_nan (thrust_r raw) = false ->
          exists thrust,
            py_int (thrust_r s0) = inl thrust
            /\ (0 <= thrust <= 52427)%Z
            /\ fst out = Returned
            /\ sent (snd out)
               = sent s ++ [mkSetpoint (roll_r s0) (pitch_r s0)
                              (yawrate_r s0) thrust])).
Proof.
  intros raw s0 out.
  assert (Harmed : enabled s = true ->
                   match py_int (thrust_r s) with
                   | inl thrust =>
                       fst (send_outputs s) = Returned
                       /\ sent (snd (send_outputs s))
                          = sent s ++ [mkSetpoint (roll_r s) (pitch_r s)
                                         (yawrate_r s) thrust]
                   | inr e => send_outputs s = (Raised e, s)
                   end).
  { intros He. unfold send_outputs. rewrite He.
    destruct (py_int (thrust_r s)); [split|]; reflexivity. }
  split; [intros He; unfold send_outputs; rewrite He; reflexivity|].
  split; [exact Harmed|].
  split.
  { intros He. unfold send_outputs. rewrite He. split.
    - intros Hn. rewrite py_int_nan by exact Hn. reflexivity.
    - intros [-> | ->]; reflexivity. }
  destruct (ieee_calc_sent w s) as [Hsent Hen]. fold s0 in Hsent, Hen.
  split.
  { intros Hraise.
    destruct (ieee_calc_control_signals w s) as (Hfst & _).
    assert (Hr : fst (control_law s) <> Returned)
      by (rewrite <- Hfst; exact Hraise).
    pose proof (ieee_calc_raised w s Hr) as Hcalc.
    destruct (ieee_control_law_raises s) as [H|H]; [contradiction|].
    destruct (ieee_control_law_frame s) as ((_ & Hs & _) & _).
    split; [|exact Hs].
    unfold out, run_iteration. rewrite Hcalc. unfold raw.
    clear - H. destruct (control_law s) as [o c]. cbn [fst snd] in *.
    rewrite H. reflexivity. }
  intros Hret.
  assert (Hout : out = send_outputs s0).
  { unfold out, s0, run_iteration.
    destruct (calc_control_signals w s) as [o c]. cbn [fst snd] in *.
    subst o. reflexivity. }
  destruct (ieee_calc_control_signals w s) as (Hfst & Hclip & _).
  rewrite Hfst in Hret. destruct (Hclip Hret) as (_ & _ & _ & Ht).
  fold raw s0 in Ht.
  split; [exact Hout|]. split; [exact Hsent|]. split; [exact Hen|].
  split.
  - intros He Hn. rewrite Hout. unfold send_outputs. rewrite Hen, He.
    rewrite py_int_nan; [reflexivity|].
    rewrite Ht, np_clip_nan by exact Hn. exact Hn.
  - intros He Hn.
    assert (Hr : in_range 0 (0.8 * 2 ^ 16 - 1) (thrust_r s0))
      by (rewrite Ht; apply np_clip_in_range; [lra | exact Hn]).
    destruct (py_int_in_range _ _ Hr) as (z & Hz & H0 & Hhi).
    exists z. split; [exact Hz|].
    split.
    { split; [exact H0|].
      assert (H : (z < 52428)%Z) by (apply lt_IZR; lra). lia. }
    rewrite Hout. unfold send_outputs. rewrite Hen, He, Hz.
    cbn [fst snd]. unfold send_setpoint, set_sent. cbn [sent].
    rewrite Hsent. split; reflexivity.
Qed.

End IEEEIteration.

(** On [lost_z] the raw thrust is NaN. *)
Lemma lost_z_thrust_nan : is_nan (thrust_r (snd (control_law lost_z))) = true.
Proof.
  rewrite (ieee_control_law_thrust lost_z eq_refl).
  destruct (ieee_control_law_frame lost_z) as (_ & _ & _ & ->).
  reflexivity.
Qed.

Lemma iteration_sends_or_raises_witness :
  enabled lost_z = true
  /\ fst (calc_control_signals early lost_z) = Returned
  /\ run_iteration early lost_z
     = (Raised ValueError, snd (calc_control_signals early lost_z))
  /\ sent (snd (run_iteration early lost_z)) = sent lost_z.
Proof.
  assert (He : enabled lost_z = true) by reflexivity.
  assert (Hret : fst (calc_control_signals early lost_z) = Returned)
    by (apply calc_returns_with_flight_config; reflexivity).
  pose proof (iteration_sends_or_raises early lost_z) as H.
  cbn zeta in H. destruct H as (_ & _ & _ & _ & H).
  destruct (H Hret) as (_ & Hsent & _ & Hnan & _).
  pose proof (Hnan He lost_z_thrust_nan) as Hout.
  split; [exact He|]. split; [exact Hret|]. split; [exact Hout|].
  rewrite Hout. exact Hsent.
Defined.
